(** * hvac_ir_climate: the Mitsubishi infrared frame encoder

    A shallow embedding of [utils/ir_sender.py] and [utils/mitsubishi.py].

    Python integers are unbounded, so they are modelled by [Z]; [|] is
    [Z.lor], [&] is [Z.land], [<<] is [Z.shiftl], [%] and [//] with a
    positive right operand are [Z.modulo] and [Z.div] (both floor).
    Objects with mutable attributes become records threaded through a small
    state monad; the [while] loop of [send_data] is defined by well-founded
    recursion on the distance between the running mask and its bound. *)

From Stdlib Require Import ZArith Lia Ascii.
From Equations Require Import Equations.
From stdpp Require Import base list strings gmap.

Open Scope Z_scope.

(** ** A state monad for methods that mutate [self] *)

Definition State (S A : Type) : Type := S → A * S.

Definition ret {S A} (a : A) : State S A := λ s, (a, s).

Definition bind {S A B} (m : State S A) (k : A → State S B) : State S B :=
  λ s, let (a, s') := m s in k a s'.

Definition gets {S A} (f : S → A) : State S A := λ s, (f s, s).

Definition modify {S} (f : S → S) : State S unit := λ s, (tt, f s).

(** [if c: m] without an [else] branch. *)
Definition when {S} (c : bool) (m : State S unit) : State S unit :=
  if c then m else ret tt.

(** Final state and returned value of a method call. *)
Definition exec {S A} (m : State S A) (s : S) : S := snd (m s).
Definition eval {S A} (m : State S A) (s : S) : A := fst (m s).

Declare Scope state_scope.
Delimit Scope state_scope with state.
Notation "x <- m ;; k" := (bind m (λ x, k))
  (at level 20, m at level 99, k at level 200, only parsing) : state_scope.
Notation "m ;; k" := (bind m (λ _, k))
  (at level 100, k at level 200, only parsing, right associativity)
  : state_scope.
Open Scope state_scope.

(** ** ir_sender.py *)

Module WaveGenerator.

Record t := mk { raw_codes : list Z }.

(** [__init__]: every instance starts with its own empty list. *)
Definition init : t := {| raw_codes := [] |}.

(** [zero]: [self.raw_codes.append(-duration)]. *)
Definition zero (duration : Z) : State t unit :=
  modify (λ self, {| raw_codes := raw_codes self ++ [- duration] |}).

(** [one]: [self.raw_codes.append(duration)]. *)
Definition one (duration : Z) : State t unit :=
  modify (λ self, {| raw_codes := raw_codes self ++ [duration] |}).

End WaveGenerator.

Module NEC.

(** The keyword arguments of [NEC.__init__]; an absent keyword takes the
    default of the signature.  [duty_cycle] is a float that no method
    reads; it is not modelled. *)
Record kwargs := mk_kwargs {
  kw_frequency : option Z;
  kw_leading_pulse_duration : option Z;
  kw_leading_gap_duration : option Z;
  kw_one_pulse_duration : option Z;
  kw_one_gap_duration : option Z;
  kw_zero_pulse_duration : option Z;
  kw_zero_gap_duration : option Z;
  kw_trailing_pulse_duration : option Z;
  kw_trailing_gap_duration : option Z;
}.

Definition no_kwargs : kwargs :=
  mk_kwargs None None None None None None None None None.

Record t := mk {
  wave_generator : WaveGenerator.t;
  frequency : Z;
  leading_pulse_duration : Z;
  leading_gap_duration : Z;
  one_pulse_duration : Z;
  one_gap_duration : Z;
  zero_pulse_duration : Z;
  zero_gap_duration : Z;
  trailing_pulse_duration : Z;
  trailing_gap_duration : Z;
}.

Definition init (kw : kwargs) : t := {|
  wave_generator := WaveGenerator.init;
  frequency := default 38000 (kw_frequency kw);
  leading_pulse_duration := default 9000 (kw_leading_pulse_duration kw);
  leading_gap_duration := default 4500 (kw_leading_gap_duration kw);
  one_pulse_duration := default 562 (kw_one_pulse_duration kw);
  one_gap_duration := default 1686 (kw_one_gap_duration kw);
  zero_pulse_duration := default 562 (kw_zero_pulse_duration kw);
  zero_gap_duration := default 562 (kw_zero_gap_duration kw);
  trailing_pulse_duration := default 562 (kw_trailing_pulse_duration kw);
  trailing_gap_duration := default 0 (kw_trailing_gap_duration kw);
|}.

(** A call [self.wave_generator.m(...)]: only that attribute changes. *)
Definition on_wave_generator {A} (m : State WaveGenerator.t A) : State t A :=
  λ self,
    let (a, wg) := m (wave_generator self) in
    (a, mk wg (frequency self)
           (leading_pulse_duration self) (leading_gap_duration self)
           (one_pulse_duration self) (one_gap_duration self)
           (zero_pulse_duration self) (zero_gap_duration self)
           (trailing_pulse_duration self) (trailing_gap_duration self)).

Definition send_agc : State t unit :=
  lp <- gets leading_pulse_duration ;;
  on_wave_generator (WaveGenerator.one lp) ;;
  lg <- gets leading_gap_duration ;;
  on_wave_generator (WaveGenerator.zero lg).

Definition send_trailing_pulse : State t unit :=
  tp <- gets trailing_pulse_duration ;;
  on_wave_generator (WaveGenerator.one tp) ;;
  tg <- gets trailing_gap_duration ;;
  when (bool_decide (tg > 0)) (on_wave_generator (WaveGenerator.zero tg)).

Definition zero : State t unit :=
  zp <- gets zero_pulse_duration ;;
  on_wave_generator (WaveGenerator.one zp) ;;
  zg <- gets zero_gap_duration ;;
  on_wave_generator (WaveGenerator.zero zg).

Definition one : State t unit :=
  op <- gets one_pulse_duration ;;
  on_wave_generator (WaveGenerator.one op) ;;
  og <- gets one_gap_duration ;;
  on_wave_generator (WaveGenerator.zero og).

(** The [for i in ircode] loop of [process_code].  [Some r] means the
    loop left the method with [return r]; [None] means it ran to the end of
    the string. *)
Fixpoint for_ircode (ircode : string) : State t (option Z) :=
  match ircode with
  | EmptyString => ret None
  | String i rest =>
      if bool_decide (i = "0"%char) then zero ;; for_ircode rest
      else if bool_decide (i = "1"%char) then one ;; for_ircode rest
      else ret (Some 1)
  end.

Definition process_code (ircode : string) : State t Z :=
  lp <- gets leading_pulse_duration ;;
  lg <- gets leading_gap_duration ;;
  when (bool_decide (lp > 0) || bool_decide (lg > 0)) send_agc ;;
  r <- for_ircode ircode ;;
  match r with
  | Some code => ret code
  | None =>
      tp <- gets trailing_pulse_duration ;;
      when (bool_decide (tp > 0)) send_trailing_pulse ;;
      ret 0
  end.

End NEC.

(** What [send_code] and [send_data] hand back: the integer [1], or the list
    object [raw_codes]. *)
Inductive result :=
  | Status (code : Z)
  | RawCodes (codes : list Z).

Module IrSender.

Record t := mk { protocol : NEC.t }.

Definition init (protocol_config : NEC.kwargs) : t :=
  {| protocol := NEC.init protocol_config |}.

Definition on_protocol {A} (m : State NEC.t A) : State t A :=
  λ self, let (a, p) := m (protocol self) in (a, mk p).

(** [for _ in range(0, nb)] of [send_code], run [n] times; [Some r] means
    the loop left the method with [return r]. *)
Fixpoint for_range (n : nat) (ircode : string) : State t (option Z) :=
  match n with
  | O => ret None
  | S n' =>
      code <- on_protocol (NEC.process_code ircode) ;;
      if bool_decide (code ≠ 0) then ret (Some 1)
      else for_range n' ircode
  end.

(** [range(0, nb)] is empty for [nb <= 0], hence [Z.to_nat]. *)
Definition send_code (ircode : string) (nb : Z) : State t result :=
  r <- for_range (Z.to_nat nb) ircode ;;
  match r with
  | Some code => ret (Status code)
  | None =>
      raw <- gets (λ self,
               WaveGenerator.raw_codes (NEC.wave_generator (protocol self))) ;;
      ret (RawCodes raw)
  end.

(** The control of [while max_mask > mask > 0: ...; mask = mask << 1],
    with the loop body a parameter: [body mask acc] is the state after one
    iteration at [mask].  The distance [max_mask - mask] shrinks because
    the test gives [mask > 0]. *)
Equations? while_mask {A : Type} (body : Z → A → A)
    (max_mask mask : Z) (acc : A) : A
    by wf (Z.to_nat (max_mask - mask)) lt :=
  while_mask body max_mask mask acc
    with decide (max_mask > mask ∧ mask > 0) => {
    | left _ => while_mask body max_mask (Z.shiftl mask 1) (body mask acc)
    | right _ => acc }.
Proof.
  rewrite Z.shiftl_mul_pow2 by lia. lia.
Qed.

(** The body of the [while] loop of [send_data] for the byte [byte]
    ([data[idx]]). *)
Definition send_data_body (must_invert : bool) (byte : Z)
    (mask : Z) (code : list string) : list string :=
  if must_invert then
    if bool_decide (Z.land byte mask ≠ 0) then code ++ ["1"%string]
    else code ++ ["0"%string]
  else
    if bool_decide (Z.land byte mask ≠ 0) then ["1"%string] ++ code
    else ["0"%string] ++ code.

(** [idx = i if must_invert else (len(data) - i - 1)]; [i] ranges over
    [range(0, len(data))], so the difference is never negative. *)
Definition send_data_idx (data : list Z) (must_invert : bool) (i : nat) : nat :=
  if must_invert then i else (length data - i - 1)%nat.

(** The list [code] when the [for] loop of [send_data] ends.  [data[idx]]
    is read with the total lookup; [idx] is always in range (lemma
    [send_data_idx_lt]), so Python's IndexError cannot occur. *)
Definition send_data_code (data : list Z) (max_mask : Z)
    (must_invert : bool) : list string :=
  foldl (λ code i,
           let idx := send_data_idx data must_invert i in
           while_mask (send_data_body must_invert (data !!! idx))
             max_mask 1 code)
        [] (seq 0 (length data)).

Definition send_data (data : list Z) (max_mask : Z) (must_invert : bool)
    (nb : Z) : State t result :=
  send_code (String.concat "" (send_data_code data max_mask must_invert)) nb.

(** The masks of one run of the [while] loop, in the order in which the
    loop takes them: the same loop with a body that records [mask]. *)
Definition visited_masks (max_mask : Z) : list Z :=
  while_mask (λ mask trace, trace ++ [mask]) max_mask 1 [].

End IrSender.

(** ** mitsubishi.py *)

Module PowerMode.
Definition PowerOff : Z := 0x00.
Definition PowerOn : Z := 0x20.
End PowerMode.

Module ClimateMode.
Definition Hot : Z := 0x08.
Definition Cold : Z := 0x18.
Definition Dry : Z := 0x10.
Definition Auto : Z := 0x20.

(** The four public codes of the class. *)
Definition modes : list Z := [Hot; Cold; Dry; Auto].

Definition __Hot2 : Z := 0x00.
Definition __Cold2 : Z := 0x06.
Definition __Dry2 : Z := 0x02.
Definition __Auto2 : Z := 0x00.

(** [climate2]: four [if ...: return ...] in a row and no final [return];
    falling off the end of a Python function returns [None]. *)
Definition climate2 (climate_mode : Z) : option Z :=
  if bool_decide (climate_mode = Hot) then Some __Hot2
  else if bool_decide (climate_mode = Cold) then Some __Cold2
  else if bool_decide (climate_mode = Dry) then Some __Dry2
  else if bool_decide (climate_mode = Auto) then Some __Auto2
  else None.
End ClimateMode.

Module ISeeMode.
Definition ISeeOff : Z := 0x00.
Definition ISeeOn : Z := 0x40.
End ISeeMode.

Module PowerfulMode.
Definition PowerfulOff : Z := 0x00.
Definition PowerfulOn : Z := 0x08.
End PowerfulMode.

Module VanneHorizontalMode.
Definition NotSet : Z := 0x00.
Definition Left : Z := 0x10.
Definition MiddleLeft : Z := 0x20.
Definition Middle : Z := 0x30.
Definition MiddleRight : Z := 0x40.
Definition Right : Z := 0x50.
Definition Swing : Z := 0xC0.
End VanneHorizontalMode.

Module FanMode.
Definition Speed1 : Z := 0x01.
Definition Speed2 : Z := 0x02.
Definition Speed3 : Z := 0x03.
Definition Speed4 : Z := 0x04.
Definition Auto : Z := 0x80.
End FanMode.

Module VanneVerticalMode.
Definition Auto : Z := 0x40.
Definition Top : Z := 0x48.
Definition MiddleTop : Z := 0x50.
Definition Middle : Z := 0x58.
Definition MiddleBottom : Z := 0x60.
Definition Bottom : Z := 0x68.
Definition Swing : Z := 0x78.
End VanneVerticalMode.

Module TimeControlMode.
Definition NoTimeControl : Z := 0x00.
Definition ControlStart : Z := 0x05.
Definition ControlEnd : Z := 0x03.
Definition ControlBoth : Z := 0x07.
End TimeControlMode.

Module AreaMode.
Definition NotSet : Z := 0x00.
Definition Left : Z := 0x40.
Definition Right : Z := 0xC0.
Definition Full : Z := 0x80.
End AreaMode.

Module Delay.
Definition HdrMark : Z := 3400.
Definition HdrSpace : Z := 1750.
Definition BitMark : Z := 450.
Definition OneSpace : Z := 1300.
Definition ZeroSpace : Z := 420.
Definition RptMark : Z := 440.
Definition RptSpace : Z := 17100.
End Delay.

Module Index.
Definition Header0 : nat := 0.
Definition Header1 : nat := 1.
Definition Header2 : nat := 2.
Definition Header3 : nat := 3.
Definition Header4 : nat := 4.
Definition Power : nat := 5.
Definition ClimateAndISee : nat := 6.
Definition Temperature : nat := 7.
Definition ClimateAndHorizontalVanne : nat := 8.
Definition FanAndVerticalVanne : nat := 9.
Definition Clock : nat := 10.
Definition EndTime : nat := 11.
Definition StartTime : nat := 12.
Definition TimeControlAndArea : nat := 13.
Definition Unused14 : nat := 14.
Definition PowerfulMode : nat := 15.
Definition Unused16 : nat := 16.
Definition CRC : nat := 17.
End Index.

Module Constants.
Definition Frequency : Z := 38000.
Definition MinTemp : Z := 16.
Definition MaxTemp : Z := 31.
Definition MaxMask : Z := 0xFF.
Definition NbBytes : Z := 18.
Definition NbPackets : Z := 2.
End Constants.

(** The two attributes that the encoder reads from [datetime.today()] and
    from the optional [start_time] and [end_time] objects. *)
Record time := mk_time { hour : Z; minute : Z }.

Module builtins.

(** Python's built-in [sum]: a left fold of [+] from [0]. *)
Definition sum (l : list Z) : Z := foldl Z.add 0 l.

(** Python's slice [l[:-1]]: everything but the last element. *)
Definition but_last {A} (l : list A) : list A := take (length l - 1) l.

End builtins.

(** The arguments of [Mitsubishi.__send_command], in the order of its
    signature. *)
Record settings := mk_settings {
  climate_mode : Z;
  temperature : Z;
  fan_mode : Z;
  vanne_vertical_mode : Z;
  vanne_horizontal_mode : Z;
  isee_mode : Z;
  area_mode : Z;
  start_time : option time;
  end_time : option time;
  powerful : Z;
}.

Module Mitsubishi.

(** The four-way [if]/[elif] chain that chooses [time_control]. *)
Definition time_control (start_time end_time : option time) : Z :=
  if bool_decide (end_time ≠ None) && bool_decide (start_time ≠ None)
  then TimeControlMode.ControlBoth
  else if bool_decide (end_time ≠ None) then TimeControlMode.ControlEnd
  else if bool_decide (start_time ≠ None) then TimeControlMode.ControlStart
  else TimeControlMode.NoTimeControl.

(** The protocol configuration that [__send_command] hands to [IrSender]. *)
Definition protocol_config : NEC.kwargs := {|
  NEC.kw_frequency := None;
  NEC.kw_leading_pulse_duration := Some Delay.HdrMark;
  NEC.kw_leading_gap_duration := Some Delay.HdrSpace;
  NEC.kw_one_pulse_duration := Some Delay.BitMark;
  NEC.kw_one_gap_duration := Some Delay.OneSpace;
  NEC.kw_zero_pulse_duration := Some Delay.BitMark;
  NEC.kw_zero_gap_duration := Some Delay.ZeroSpace;
  NEC.kw_trailing_pulse_duration := Some Delay.RptMark;
  NEC.kw_trailing_gap_duration := Some Delay.RptSpace;
|}.

(** The list [data] of [__send_command] when the checksum has been
    stored, for the clock reading [now].  [None] stands for the TypeError
    that [None | vanne_horizontal_mode] raises when [climate2] has no
    answer; nothing has left the method by then. *)
Definition frame (s : settings) (power_mode : Z) (now : time)
    : option (list Z) :=
  let data := [0x23; 0xCB; 0x26; 0x01; 0x00; 0x20;
               0x08; 0x06; 0x30; 0x45; 0x67; 0x00;
               0x00; 0x00; 0x10; 0x00; 0x00; 0x1F] in
  let data := <[Index.Power := power_mode]> data in
  let data :=
    <[Index.ClimateAndISee := Z.lor (climate_mode s) (isee_mode s)]> data in
  let data :=
    <[Index.Temperature :=
        Z.max Constants.MinTemp (Z.min Constants.MaxTemp (temperature s)) - 16]>
      data in
  climate2 ← ClimateMode.climate2 (climate_mode s);
  let data :=
    <[Index.ClimateAndHorizontalVanne :=
        Z.lor climate2 (vanne_horizontal_mode s)]> data in
  let data :=
    <[Index.FanAndVerticalVanne :=
        Z.lor (fan_mode s) (vanne_vertical_mode s)]> data in
  let data := <[Index.Clock := hour now * 6 + minute now / 10]> data in
  let data :=
    match end_time s with
    | None => <[Index.EndTime := 0]> data
    | Some end_time =>
        <[Index.EndTime := hour end_time * 6 + minute end_time / 10]> data
    end in
  let data :=
    match start_time s with
    | None => <[Index.StartTime := 0]> data
    | Some start_time =>
        <[Index.StartTime := hour start_time * 6 + minute start_time / 10]>
          data
    end in
  let time_control := time_control (start_time s) (end_time s) in
  let data :=
    <[Index.TimeControlAndArea := Z.lor time_control (area_mode s)]> data in
  let data := <[Index.PowerfulMode := powerful s]> data in
  let data :=
    <[Index.CRC :=
        builtins.sum (builtins.but_last data) mod (Constants.MaxMask + 1)]>
      data in
  Some data.

(** The [IrSender] objects that exist, by address.  [IrSender(...)]
    makes a new object at a new address; a method call on an address
    changes that object only. *)
Abbreviation heap := (list IrSender.t).

Definition new (o : IrSender.t) : State heap nat :=
  λ h, (length h, h ++ [o]).

#[global] Instance IrSender_inhabited : Inhabited IrSender.t :=
  populate (IrSender.init NEC.no_kwargs).

(** A method call on the object at [addr]; an address that [new] handed
    out is always in the heap. *)
Definition call {A} (addr : nat) (m : State IrSender.t A) : State heap A :=
  λ h, let (a, o) := m (h !!! addr) in (a, <[addr := o]> h).

(** [__send_command]: the sender is made first, then the frame is built
    (reading the clock, here the argument [now]), then the frame is sent.
    [None] is the TypeError of [frame]. *)
Definition __send_command (s : settings) (power_mode : Z) (now : time)
    : State heap (option result) :=
  sender <- new (IrSender.init protocol_config) ;;
  match frame s power_mode now with
  | None => ret None
  | Some data =>
      r <- call sender
             (IrSender.send_data data Constants.MaxMask true
                Constants.NbPackets) ;;
      ret (Some r)
  end.

(** The defaults of the keyword arguments of [send_command]. *)
Definition default_settings : settings := {|
  climate_mode := ClimateMode.Auto;
  temperature := 21;
  fan_mode := FanMode.Auto;
  vanne_vertical_mode := VanneVerticalMode.Auto;
  vanne_horizontal_mode := VanneHorizontalMode.NotSet;
  isee_mode := ISeeMode.ISeeOff;
  area_mode := AreaMode.NotSet;
  start_time := None;
  end_time := None;
  powerful := PowerfulMode.PowerfulOff;
|}.

Definition send_command (s : settings) (now : time)
    : State heap (option result) :=
  __send_command s PowerMode.PowerOn now.

Definition power_off (now : time) : State heap (option result) :=
  __send_command
    {| climate_mode := ClimateMode.Auto;
       temperature := 21;
       fan_mode := FanMode.Auto;
       vanne_vertical_mode := VanneVerticalMode.Auto;
       vanne_horizontal_mode := VanneHorizontalMode.Swing;
       isee_mode := ISeeMode.ISeeOff;
       area_mode := AreaMode.NotSet;
       start_time := None;
       end_time := None;
       powerful := PowerfulMode.PowerfulOff |}
    PowerMode.PowerOff now.

End Mitsubishi.

(** ** Waveforms, as the statements below describe them *)

Module Wave.

(** The accumulated durations of a modulator. *)
Definition raw (nec : NEC.t) : list Z :=
  WaveGenerator.raw_codes (NEC.wave_generator nec).

(** The modulator [nec] with [w] appended to its accumulated durations. *)
Definition emit (w : list Z) (nec : NEC.t) : NEC.t :=
  NEC.mk (WaveGenerator.mk (raw nec ++ w)) (NEC.frequency nec)
    (NEC.leading_pulse_duration nec) (NEC.leading_gap_duration nec)
    (NEC.one_pulse_duration nec) (NEC.one_gap_duration nec)
    (NEC.zero_pulse_duration nec) (NEC.zero_gap_duration nec)
    (NEC.trailing_pulse_duration nec) (NEC.trailing_gap_duration nec).

(** Every symbol of the string is ["0"] or ["1"]. *)
Fixpoint valid_ircode (ircode : string) : bool :=
  match ircode with
  | EmptyString => true
  | String i rest =>
      (bool_decide (i = "0"%char) || bool_decide (i = "1"%char))
      && valid_ircode rest
  end.

(** The symbols before the first one that is neither ["0"] nor ["1"]. *)
Fixpoint valid_prefix (ircode : string) : string :=
  match ircode with
  | EmptyString => EmptyString
  | String i rest =>
      if bool_decide (i = "0"%char) || bool_decide (i = "1"%char)
      then String i (valid_prefix rest)
      else EmptyString
  end.

(** Mark and space of each symbol of a string of ["0"] and ["1"]. *)
Fixpoint bits (nec : NEC.t) (ircode : string) : list Z :=
  match ircode with
  | EmptyString => []
  | String i rest =>
      (if bool_decide (i = "0"%char)
       then [NEC.zero_pulse_duration nec; - NEC.zero_gap_duration nec]
       else [NEC.one_pulse_duration nec; - NEC.one_gap_duration nec])
      ++ bits nec rest
  end.

(** The leading burst: both entries, or nothing. *)
Definition leading (nec : NEC.t) : list Z :=
  if bool_decide (NEC.leading_pulse_duration nec > 0)
     || bool_decide (NEC.leading_gap_duration nec > 0)
  then [NEC.leading_pulse_duration nec; - NEC.leading_gap_duration nec]
  else [].

(** The trailing burst: the mark, and the space when it is positive. *)
Definition trailing (nec : NEC.t) : list Z :=
  if bool_decide (NEC.trailing_pulse_duration nec > 0)
  then NEC.trailing_pulse_duration nec
       :: (if bool_decide (NEC.trailing_gap_duration nec > 0)
           then [- NEC.trailing_gap_duration nec] else [])
  else [].

(** One full emission of a string of ["0"] and ["1"]. *)
Definition full (nec : NEC.t) (ircode : string) : list Z :=
  leading nec ++ bits nec ircode ++ trailing nec.

(** The symbol that [send_data] writes for the bit of [byte] under [mask]. *)
Definition bit_string (byte mask : Z) : string :=
  if bool_decide (Z.land byte mask ≠ 0) then "1"%string else "0"%string.

(** The symbols of one byte, in the order in which the loop takes the
    masks. *)
Definition byte_bits (max_mask byte : Z) : list string :=
  bit_string byte <$> IrSender.visited_masks max_mask.

(** Every element of the list is the one-symbol string ["0"] or ["1"]. *)
Definition bit_strings (code : list string) : Prop :=
  Forall (λ c, c = "0"%string ∨ c = "1"%string) code.

(** Following the words of the specification, not the source: a leading
    burst whose low phase is left out when the leading gap is not
    positive, as in the trailing burst. *)
Definition spec_leading (nec : NEC.t) : list Z :=
  if bool_decide (NEC.leading_pulse_duration nec > 0)
     || bool_decide (NEC.leading_gap_duration nec > 0)
  then NEC.leading_pulse_duration nec
       :: (if bool_decide (NEC.leading_gap_duration nec > 0)
           then [- NEC.leading_gap_duration nec] else [])
  else [].

(** Following the words of the specification, not the source: the set
    bits of [max_mask], from the most significant down to the least. *)
Definition spec_visited_masks (max_mask : Z) : list Z :=
  filter (λ mask, Z.land max_mask mask ≠ 0)
    ((λ k, 2 ^ Z.of_nat k) <$> rev (seq 0 (Z.to_nat (Z.log2 max_mask + 1)))).

End Wave.

Module Frame.

(** Time of day in ten-minute ticks; an absent time counts as 0. *)
Definition ticks (t : option time) : Z :=
  match t with
  | None => 0
  | Some t => hour t * 6 + minute t / 10
  end.

(** The first seventeen bytes of the frame, written out, for the
    secondary climate code [climate2]. *)
Definition payload (s : settings) (power_mode : Z) (now : time)
    (climate2 : Z) : list Z :=
  [0x23; 0xCB; 0x26; 0x01; 0x00;
   power_mode;
   Z.lor (climate_mode s) (isee_mode s);
   Z.max 16 (Z.min 31 (temperature s)) - 16;
   Z.lor climate2 (vanne_horizontal_mode s);
   Z.lor (fan_mode s) (vanne_vertical_mode s);
   hour now * 6 + minute now / 10;
   ticks (end_time s);
   ticks (start_time s);
   Z.lor (Mitsubishi.time_control (start_time s) (end_time s)) (area_mode s);
   0x10;
   powerful s;
   0x00].

(** The waveform that [__send_command] returns for the frame [data]. *)
Definition waveform (data : list Z) : list Z :=
  let once :=
    Wave.full (NEC.init Mitsubishi.protocol_config)
      (String.concat ""
         (IrSender.send_data_code data Constants.MaxMask true)) in
  once ++ once.

End Frame.

Module Pulse.

(** A list of durations made of pairs: a positive entry (mark) followed by
    a negative entry (space). *)
Fixpoint alternates (l : list Z) : Prop :=
  match l with
  | [] => True
  | mark :: rest =>
      match rest with
      | [] => False
      | space :: rest' => mark > 0 ∧ space < 0 ∧ alternates rest'
      end
  end.

(** All eight durations of a modulator are positive. *)
Definition positive_timing (nec : NEC.t) : Prop :=
  NEC.leading_pulse_duration nec > 0 ∧ NEC.leading_gap_duration nec > 0
  ∧ NEC.one_pulse_duration nec > 0 ∧ NEC.one_gap_duration nec > 0
  ∧ NEC.zero_pulse_duration nec > 0 ∧ NEC.zero_gap_duration nec > 0
  ∧ NEC.trailing_pulse_duration nec > 0 ∧ NEC.trailing_gap_duration nec > 0.

(** The mark and space of ["0"] differ from those of ["1"]. *)
Definition distinct_symbols (nec : NEC.t) : Prop :=
  NEC.zero_pulse_duration nec ≠ NEC.one_pulse_duration nec
  ∨ NEC.zero_gap_duration nec ≠ NEC.one_gap_duration nec.

(** Every element is a byte value. *)
Definition bytes (data : list Z) : Prop := Forall (λ b, 0 ≤ b < 256) data.

(** An hour from 0 to 23 and a minute from 0 to 59, as the attributes of a
    Python [datetime] or [time] object are. *)
Definition time_of_day (t : time) : Prop :=
  0 ≤ hour t ≤ 23 ∧ 0 ≤ minute t ≤ 59.

(** An optional time that is a time of day when it is present. *)
Definition optional_time_of_day (t : option time) : Prop :=
  match t with
  | None => True
  | Some t => time_of_day t
  end.

(** Every code of the settings record is a byte value and its times are
    times of day; the temperature is any integer. *)
Definition byte_settings (s : settings) : Prop :=
  bytes [climate_mode s; fan_mode s; vanne_vertical_mode s;
         vanne_horizontal_mode s; isee_mode s; area_mode s; powerful s]
  ∧ optional_time_of_day (start_time s)
  ∧ optional_time_of_day (end_time s).

End Pulse.

(** ** controller.py and climate.py

    The entity [HvacIrClimate] of Home Assistant and its controller.  The
    methods are coroutines that run under the entity's lock; one call is
    modelled from its start to its end, with no other coroutine of the
    entity in between.  Writing the state back to Home Assistant
    ([async_update_ha_state]) changes nothing that the methods read and is
    left out. *)

(** The constants that [climate.py] imports from
    [homeassistant.components.climate.const].  Their values are not part of
    this repository: they are parameters. *)
Class HvacModes := {
  HVAC_MODE_OFF : string;
  HVAC_MODE_HEAT : string;
  HVAC_MODE_COOL : string;
  HVAC_MODE_DRY : string;
  HVAC_MODE_FAN_ONLY : string;
}.

Module str.

(** [str.lower] on the letters A to Z; other characters are kept. *)
Definition lower_ascii (c : ascii) : ascii :=
  let n := nat_of_ascii c in
  if (65 <=? n)%nat && (n <=? 90)%nat then ascii_of_nat (n + 32) else c.

Fixpoint lower (s : string) : string :=
  match s with
  | EmptyString => EmptyString
  | String c rest => String (lower_ascii c) (lower rest)
  end.

End str.

(** The exceptions that the body of [HvacIrClimate.send_command] can
    raise. *)
Inductive exn :=
  | KeyError (key : string)
  | TypeError.

(** [d[key]] on a dictionary. *)
Definition getitem {V} (d : gmap string V) (key : string) : exn + V :=
  match d !! key with
  | Some v => inr v
  | None => inl (KeyError key)
  end.

(** One call of [hass.services.async_call(domain, service, service_data)]
    with [service_data = {"code": code}]. *)
Record service_call := mk_service_call {
  call_domain : string;
  call_service : string;
  call_code : result;
}.

(** What the logger receives. *)
Inductive log_entry :=
  | Warning (msg : string)
  | Exception (e : exn).

Module ESPHomeController.

Record t := mk { _controller_data : string }.

(** [send]: one service call in the domain ["esphome"]; the list is the
    calls that Home Assistant has received. *)
Definition send (self : t) (command : result) : State (list service_call) unit :=
  modify (λ calls,
    calls ++ [mk_service_call "esphome" (_controller_data self) command]).

End ESPHomeController.

Module HvacIrClimate.

Section with_modes.

Context `{HvacModes}.

(** The attributes that the methods read or write. *)
Record t := mk {
  _min_temperature : Z;
  _max_temperature : Z;
  _operation_modes : gmap string (option Z);
  _fan_modes : gmap string Z;
  _swing_modes : gmap string Z;
  _target_temperature : Z;
  _hvac_mode : string;
  _current_fan_mode : string;
  _current_swing_mode : string;
  _last_on_operation : option string;
  _controller : ESPHomeController.t;
}.

(** [__init__]; a dictionary display takes its entries from left to
    right, a later entry replacing an earlier one with the same key. *)
Definition init (controller_data : string) : t := {|
  _min_temperature := 16;
  _max_temperature := 31;
  _operation_modes :=
    <[HVAC_MODE_FAN_ONLY := Some ClimateMode.Auto]>
      (<[HVAC_MODE_HEAT := Some ClimateMode.Hot]>
         (<[HVAC_MODE_DRY := Some ClimateMode.Dry]>
            (<[HVAC_MODE_COOL := Some ClimateMode.Cold]>
               (<[HVAC_MODE_OFF := None]> ∅))));
  _fan_modes :=
    <["Speed4"%string := FanMode.Speed4]>
      (<["Speed3"%string := FanMode.Speed3]>
         (<["Speed2"%string := FanMode.Speed2]>
            (<["Speed1"%string := FanMode.Speed1]>
               (<["Auto"%string := FanMode.Auto]> ∅))));
  _swing_modes :=
    <["Auto"%string := VanneVerticalMode.Auto]>
      (<["Swing"%string := VanneVerticalMode.Swing]>
         (<["Bottom"%string := VanneVerticalMode.Bottom]>
            (<["MiddleBottom"%string := VanneVerticalMode.MiddleBottom]>
               (<["Middle"%string := VanneVerticalMode.Middle]>
                  (<["MiddleTop"%string := VanneVerticalMode.MiddleTop]>
                     (<["Top"%string := VanneVerticalMode.Top]> ∅))))));
  _target_temperature := 16;
  _hvac_mode := HVAC_MODE_OFF;
  _current_fan_mode := "Speed1";
  _current_swing_mode := "Top";
  _last_on_operation := None;
  _controller := ESPHomeController.mk controller_data;
|}.

(** The entity with the calls that Home Assistant has received from its
    controller and the entries that its logger has received. *)
Record world := mk_world {
  entity : t;
  service_calls : list service_call;
  log : list log_entry;
}.

Definition set_entity (f : t → t) : State world unit :=
  modify (λ w, mk_world (f (entity w)) (service_calls w) (log w)).

Definition set_target_temperature (v : Z) (self : t) : t :=
  mk (_min_temperature self) (_max_temperature self) (_operation_modes self)
    (_fan_modes self) (_swing_modes self) v (_hvac_mode self)
    (_current_fan_mode self) (_current_swing_mode self)
    (_last_on_operation self) (_controller self).

Definition set_hvac_mode (v : string) (self : t) : t :=
  mk (_min_temperature self) (_max_temperature self) (_operation_modes self)
    (_fan_modes self) (_swing_modes self) (_target_temperature self) v
    (_current_fan_mode self) (_current_swing_mode self)
    (_last_on_operation self) (_controller self).

Definition set_current_fan_mode (v : string) (self : t) : t :=
  mk (_min_temperature self) (_max_temperature self) (_operation_modes self)
    (_fan_modes self) (_swing_modes self) (_target_temperature self)
    (_hvac_mode self) v (_current_swing_mode self)
    (_last_on_operation self) (_controller self).

Definition set_current_swing_mode (v : string) (self : t) : t :=
  mk (_min_temperature self) (_max_temperature self) (_operation_modes self)
    (_fan_modes self) (_swing_modes self) (_target_temperature self)
    (_hvac_mode self) (_current_fan_mode self) v
    (_last_on_operation self) (_controller self).

Definition set_last_on_operation (v : option string) (self : t) : t :=
  mk (_min_temperature self) (_max_temperature self) (_operation_modes self)
    (_fan_modes self) (_swing_modes self) (_target_temperature self)
    (_hvac_mode self) (_current_fan_mode self) (_current_swing_mode self)
    v (_controller self).

(** What a call of the [Mitsubishi] facade returns or raises; the objects
    that the call makes are local to it. *)
Definition facade (m : State Mitsubishi.heap (option result)) : exn + result :=
  match eval m [] with
  | Some command => inr command
  | None => inl TypeError
  end.

(** The body of the [try] of [send_command] up to the value of [command],
    for the clock reading [now].  The three dictionaries are read first;
    [climate_mode=None] makes [climate_mode | isee_mode] a TypeError. *)
Definition command (self : t) (now : time) : exn + result :=
  match getitem (_operation_modes self) (_hvac_mode self) with
  | inl e => inl e
  | inr hvac_mode =>
  match getitem (_fan_modes self) (_current_fan_mode self) with
  | inl e => inl e
  | inr fan_mode =>
  match getitem (_swing_modes self) (_current_swing_mode self) with
  | inl e => inl e
  | inr swing_mode =>
      if bool_decide (str.lower (_hvac_mode self) = HVAC_MODE_OFF)
      then facade (Mitsubishi.power_off now)
      else
        match hvac_mode with
        | None => inl TypeError
        | Some climate_mode =>
            facade
              (Mitsubishi.send_command
                 {| climate_mode := climate_mode;
                    temperature := _target_temperature self;
                    fan_mode := fan_mode;
                    vanne_vertical_mode := swing_mode;
                    vanne_horizontal_mode := VanneHorizontalMode.NotSet;
                    isee_mode := ISeeMode.ISeeOff;
                    area_mode := AreaMode.NotSet;
                    start_time := None;
                    end_time := None;
                    powerful := PowerfulMode.PowerfulOff |}
                 now)
        end
  end end end.

(** [send_command]: the command goes to the controller; any exception is
    handed to the logger and the method ends normally. *)
Definition send_command (now : time) : State world unit :=
  λ w,
    match command (entity w) now with
    | inr c =>
        (tt, mk_world (entity w)
               (exec (ESPHomeController.send (_controller (entity w)) c)
                  (service_calls w))
               (log w))
    | inl e => (tt, mk_world (entity w) (service_calls w)
                      (log w ++ [Exception e]))
    end.

Definition hvac_is_off : State world bool :=
  gets (λ w, bool_decide (str.lower (_hvac_mode (entity w)) = HVAC_MODE_OFF)).

Definition async_set_hvac_mode (hvac_mode : string) (now : time)
    : State world unit :=
  set_entity (set_hvac_mode hvac_mode) ;;
  when (negb (bool_decide (hvac_mode = HVAC_MODE_OFF)))
    (set_entity (set_last_on_operation (Some hvac_mode))) ;;
  send_command now.

Definition async_set_fan_mode (fan_mode : string) (now : time)
    : State world unit :=
  set_entity (set_current_fan_mode fan_mode) ;;
  off <- hvac_is_off ;;
  when (negb off) (send_command now).

Definition async_set_swing_mode (swing_mode : string) (now : time)
    : State world unit :=
  set_entity (set_current_swing_mode swing_mode) ;;
  off <- hvac_is_off ;;
  when (negb off) (send_command now).

Definition async_turn_off (now : time) : State world unit :=
  async_set_hvac_mode HVAC_MODE_OFF now.

Definition async_turn_on (now : time) : State world unit :=
  last <- gets (λ w, _last_on_operation (entity w)) ;;
  match last with
  | Some last_on_operation => async_set_hvac_mode last_on_operation now
  | None => async_set_hvac_mode HVAC_MODE_COOL now
  end.

(** [async_set_temperature] for the keyword arguments [hvac_mode] and
    [temperature], each present or absent, with a whole number for the
    temperature: both branches of the rounding then store the number
    itself.  A string is true when it is not empty. *)
Definition async_set_temperature (hvac_mode : option string)
    (temperature : option Z) (now : time) : State world unit :=
  match temperature with
  | None => ret tt
  | Some temperature =>
      lo <- gets (λ w, _min_temperature (entity w)) ;;
      hi <- gets (λ w, _max_temperature (entity w)) ;;
      if bool_decide (temperature < lo) || bool_decide (temperature > hi)
      then
        modify (λ w, mk_world (entity w) (service_calls w)
                       (log w ++ [Warning
                          "The temperature value is out of min/max range"]))
      else
        set_entity (set_target_temperature temperature) ;;
        match hvac_mode with
        | Some mode =>
            if bool_decide (mode ≠ EmptyString)
            then async_set_hvac_mode mode now
            else
              off <- hvac_is_off ;;
              when (negb off) (send_command now)
        | None =>
            off <- hvac_is_off ;;
            when (negb off) (send_command now)
        end
  end.

End with_modes.

End HvacIrClimate.

(** The calls of a user of the entity, for statements about any sequence
    of them; each call comes with the clock reading of its transmission. *)
Inductive request :=
  | SetTemperature (hvac_mode : option string) (temperature : option Z)
  | SetHvacMode (hvac_mode : string)
  | SetFanMode (fan_mode : string)
  | SetSwingMode (swing_mode : string)
  | TurnOff
  | TurnOn.

Definition serve `{HvacModes} (r : request) (now : time)
    : State HvacIrClimate.world unit :=
  match r with
  | SetTemperature hvac_mode temperature =>
      HvacIrClimate.async_set_temperature hvac_mode temperature now
  | SetHvacMode hvac_mode => HvacIrClimate.async_set_hvac_mode hvac_mode now
  | SetFanMode fan_mode => HvacIrClimate.async_set_fan_mode fan_mode now
  | SetSwingMode swing_mode =>
      HvacIrClimate.async_set_swing_mode swing_mode now
  | TurnOff => HvacIrClimate.async_turn_off now
  | TurnOn => HvacIrClimate.async_turn_on now
  end.

Fixpoint serve_all `{HvacModes} (rs : list (request * time))
    (w : HvacIrClimate.world) : HvacIrClimate.world :=
  match rs with
  | [] => w
  | (r, now) :: rs => serve_all rs (exec (serve r now) w)
  end.

(** The values that the five constants have in Home Assistant; the
    statements are made for any values and applied to these. *)
Definition home_assistant_modes : HvacModes := {|
  HVAC_MODE_OFF := "off";
  HVAC_MODE_HEAT := "heat";
  HVAC_MODE_COOL := "cool";
  HVAC_MODE_DRY := "dry";
  HVAC_MODE_FAN_ONLY := "fan_only";
|}.

(** What the statements ask of the five constants: they are five
    different strings, and [HVAC_MODE_OFF] is the only one of them whose
    lower-case form is [HVAC_MODE_OFF]. *)
Definition modes_ok `{HvacModes} : Prop :=
  NoDup [HVAC_MODE_OFF; HVAC_MODE_HEAT; HVAC_MODE_COOL; HVAC_MODE_DRY;
         HVAC_MODE_FAN_ONLY]
  ∧ Forall (λ m, str.lower m = HVAC_MODE_OFF ↔ m = HVAC_MODE_OFF)
      [HVAC_MODE_OFF; HVAC_MODE_HEAT; HVAC_MODE_COOL; HVAC_MODE_DRY;
       HVAC_MODE_FAN_ONLY].

(** The attributes that [__init__] sets and no method assigns have the
    values that [__init__] gives them. *)
Definition constructed `{HvacModes} (e : HvacIrClimate.t) : Prop :=
  HvacIrClimate._min_temperature e = 16
  ∧ HvacIrClimate._max_temperature e = 31
  ∧ HvacIrClimate._operation_modes e
    = HvacIrClimate._operation_modes (HvacIrClimate.init "")
  ∧ HvacIrClimate._fan_modes e
    = HvacIrClimate._fan_modes (HvacIrClimate.init "")
  ∧ HvacIrClimate._swing_modes e
    = HvacIrClimate._swing_modes (HvacIrClimate.init "").

(** What a request does to the entity before anything is transmitted:
    it is refused with a warning, or it leaves the entity [e] and ends, or
    it leaves the entity [e] and calls [send_command]. *)
Inductive outcome `{HvacModes} :=
  | Refused
  | Silent (e : HvacIrClimate.t)
  | Sent (e : HvacIrClimate.t).

Section outcomes.

Context `{HvacModes}.

Import HvacIrClimate.

(** [self._hvac_mode.lower() == HVAC_MODE_OFF]. *)
Definition is_off (e : t) : bool :=
  bool_decide (str.lower (_hvac_mode e) = HVAC_MODE_OFF).

(** The two assignments of [async_set_hvac_mode]. *)
Definition with_hvac_mode (hvac_mode : string) (e : t) : t :=
  if bool_decide (hvac_mode = HVAC_MODE_OFF)
  then set_hvac_mode hvac_mode e
  else set_last_on_operation (Some hvac_mode) (set_hvac_mode hvac_mode e).

Definition unless_off (e : t) : outcome :=
  if is_off e then Silent e else Sent e.

Definition outcome_of (r : request) (e : t) : outcome :=
  match r with
  | SetTemperature _ None => Silent e
  | SetTemperature hvac_mode (Some temperature) =>
      if bool_decide (temperature < _min_temperature e)
         || bool_decide (temperature > _max_temperature e)
      then Refused
      else
        let e' := set_target_temperature temperature e in
        match hvac_mode with
        | Some mode =>
            if bool_decide (mode ≠ EmptyString)
            then Sent (with_hvac_mode mode e')
            else unless_off e'
        | None => unless_off e'
        end
  | SetHvacMode hvac_mode => Sent (with_hvac_mode hvac_mode e)
  | SetFanMode fan_mode => unless_off (set_current_fan_mode fan_mode e)
  | SetSwingMode swing_mode =>
      unless_off (set_current_swing_mode swing_mode e)
  | TurnOff => Sent (with_hvac_mode HVAC_MODE_OFF e)
  | TurnOn =>
      Sent (with_hvac_mode (default HVAC_MODE_COOL (_last_on_operation e)) e)
  end.

(** The attributes that no method assigns. *)
Definition fixed (e : t) :=
  (_min_temperature e, _max_temperature e, _operation_modes e,
   _fan_modes e, _swing_modes e, _controller e).

(** A request that assigns neither [_hvac_mode] nor
    [_last_on_operation]. *)
Definition keeps_mode (r : request) : Prop :=
  match r with
  | SetFanMode _ | SetSwingMode _ | SetTemperature None _ => True
  | _ => False
  end.

(** A service call of the controller [controller_data] that carries a
    list of 584 durations. *)
Definition well_formed_call (controller_data : string) (c : service_call)
    : Prop :=
  call_domain c = "esphome"%string
  ∧ call_service c = controller_data
  ∧ ∃ codes, call_code c = RawCodes codes ∧ length codes = 584%nat.

End outcomes.

(** The world when the entity has been made and nothing was asked yet. *)
Definition initial_world `{HvacModes} (controller_data : string)
    : HvacIrClimate.world :=
  HvacIrClimate.mk_world (HvacIrClimate.init controller_data) [] [].

(** * Properties *)

(** ** The state monad *)

Lemma bind_eq {S A B} (m : State S A) (k : A → State S B) s a s' :
  m s = (a, s') → bind m k s = k a s'.
Proof. unfold bind. intros ->. reflexivity. Qed.

(** ** The pulse modulator *)

Section NEC_facts.

Import Wave.

Lemma emit_emit w1 w2 nec : emit w2 (emit w1 nec) = emit (w1 ++ w2) nec.
Proof. unfold emit, raw. simpl. by rewrite app_assoc. Qed.

Lemma emit_nil nec : emit [] nec = nec.
Proof.
  destruct nec as [[raw0] ?]. unfold emit, raw. simpl. by rewrite app_nil_r.
Qed.

Lemma raw_emit w nec : raw (emit w nec) = raw nec ++ w.
Proof. reflexivity. Qed.

Lemma send_agc_emit nec :
  NEC.send_agc nec
  = (tt, emit [NEC.leading_pulse_duration nec; - NEC.leading_gap_duration nec]
           nec).
Proof.
  unfold NEC.send_agc, bind, gets, NEC.on_wave_generator, emit, raw. simpl.
  by rewrite <- app_assoc.
Qed.

Lemma zero_emit nec :
  NEC.zero nec
  = (tt, emit [NEC.zero_pulse_duration nec; - NEC.zero_gap_duration nec] nec).
Proof.
  unfold NEC.zero, bind, gets, NEC.on_wave_generator, emit, raw. simpl.
  by rewrite <- app_assoc.
Qed.

Lemma one_emit nec :
  NEC.one nec
  = (tt, emit [NEC.one_pulse_duration nec; - NEC.one_gap_duration nec] nec).
Proof.
  unfold NEC.one, bind, gets, NEC.on_wave_generator, emit, raw. simpl.
  by rewrite <- app_assoc.
Qed.

Lemma send_trailing_pulse_emit nec :
  NEC.send_trailing_pulse nec
  = (tt, emit (NEC.trailing_pulse_duration nec
               :: (if bool_decide (NEC.trailing_gap_duration nec > 0)
                   then [- NEC.trailing_gap_duration nec] else [])) nec).
Proof.
  unfold NEC.send_trailing_pulse, bind, gets, when, NEC.on_wave_generator,
    emit, raw.
  simpl. destruct (bool_decide _); simpl; [by rewrite <- app_assoc | done].
Qed.

Lemma bits_emit w nec ircode : bits (emit w nec) ircode = bits nec ircode.
Proof. induction ircode as [|i rest IH]; simpl; [done | by rewrite IH]. Qed.

(** The loop over the symbols emits the marks and spaces of the valid
    prefix, and leaves with [1] exactly when a symbol is invalid. *)
Lemma for_ircode_emit ircode nec :
  NEC.for_ircode ircode nec
  = (if valid_ircode ircode then None else Some 1,
     emit (bits nec (valid_prefix ircode)) nec).
Proof.
  revert nec. induction ircode as [|i rest IH]; intros nec; simpl.
  - by rewrite emit_nil.
  - destruct (bool_decide (i = "0"%char)) eqn:H0; simpl.
    + erewrite bind_eq by apply zero_emit.
      rewrite IH, emit_emit, bits_emit, H0. reflexivity.
    + destruct (bool_decide (i = "1"%char)) eqn:H1; simpl.
      * erewrite bind_eq by apply one_emit.
        rewrite IH, emit_emit, bits_emit, H0. reflexivity.
      * by rewrite emit_nil.
Qed.

Lemma valid_prefix_valid ircode :
  valid_ircode ircode = true → valid_prefix ircode = ircode.
Proof.
  induction ircode as [|i rest IH]; simpl; [done|].
  intros [Hi Hrest]%andb_true_iff. rewrite Hi. by rewrite IH.
Qed.

Lemma when_emit (c : bool) (m : State NEC.t unit) w nec :
  m nec = (tt, emit w nec) →
  when c m nec = (tt, emit (if c then w else []) nec).
Proof. destruct c; simpl; [done | by rewrite emit_nil]. Qed.

(** [process_code] in one equation. *)
Lemma process_code_emit ircode nec :
  NEC.process_code ircode nec
  = if valid_ircode ircode
    then (0, emit (full nec ircode) nec)
    else (1, emit (leading nec ++ bits nec (valid_prefix ircode)) nec).
Proof.
  unfold NEC.process_code.
  erewrite bind_eq by reflexivity. erewrite bind_eq by reflexivity.
  erewrite bind_eq by (apply when_emit, send_agc_emit).
  erewrite bind_eq by apply for_ircode_emit.
  rewrite bits_emit, emit_emit. fold (leading nec).
  destruct (valid_ircode ircode) eqn:Hv.
  - erewrite bind_eq by reflexivity.
    erewrite bind_eq by (apply when_emit, send_trailing_pulse_emit).
    rewrite emit_emit, valid_prefix_valid by done.
    unfold ret, full, trailing. simpl. by rewrite <- app_assoc.
  - reflexivity.
Qed.

End NEC_facts.

(** ** The sender *)

Section IrSender_facts.

Import Wave.

Lemma on_protocol_eq {A} (m : State NEC.t A) nec a nec' :
  m nec = (a, nec') →
  IrSender.on_protocol m (IrSender.mk nec) = (a, IrSender.mk nec').
Proof. unfold IrSender.on_protocol. simpl. by intros ->. Qed.

Lemma full_emit w nec ircode : full (emit w nec) ircode = full nec ircode.
Proof. unfold full. by rewrite bits_emit. Qed.

(** [n] passes over a string of ["0"] and ["1"] append [n] full
    emissions and never leave the loop early. *)
Lemma for_range_valid n ircode nec :
  valid_ircode ircode = true →
  IrSender.for_range n ircode (IrSender.mk nec)
  = (None, IrSender.mk (emit (concat (replicate n (full nec ircode))) nec)).
Proof.
  intros Hv. revert nec. induction n as [|n IH]; intros nec; simpl.
  - by rewrite emit_nil.
  - erewrite bind_eq; last first.
    { apply on_protocol_eq. rewrite process_code_emit, Hv. reflexivity. }
    simpl. by rewrite IH, emit_emit, full_emit.
Qed.

(** The first pass over a string with an invalid symbol leaves with [1]. *)
Lemma for_range_invalid n ircode nec :
  valid_ircode ircode = false →
  IrSender.for_range (S n) ircode (IrSender.mk nec)
  = (Some 1,
     IrSender.mk (emit (leading nec ++ bits nec (valid_prefix ircode)) nec)).
Proof.
  intros Hv. simpl.
  erewrite bind_eq; last first.
  { apply on_protocol_eq. rewrite process_code_emit, Hv. reflexivity. }
  reflexivity.
Qed.

Lemma send_code_valid ircode nb sender :
  valid_ircode ircode = true →
  eval (IrSender.send_code ircode nb) sender
  = RawCodes (raw (IrSender.protocol sender)
              ++ concat (replicate (Z.to_nat nb)
                           (full (IrSender.protocol sender) ircode))).
Proof.
  intros Hv. destruct sender as [nec]. unfold eval, IrSender.send_code.
  erewrite bind_eq by by apply for_range_valid.
  reflexivity.
Qed.

Lemma send_code_invalid ircode nb sender :
  0 < nb →
  valid_ircode ircode = false →
  eval (IrSender.send_code ircode nb) sender = Status 1.
Proof.
  intros Hnb Hv. destruct sender as [nec]. unfold eval, IrSender.send_code.
  destruct (Z.to_nat nb) as [|n] eqn:Hn; [lia|].
  erewrite bind_eq by by apply for_range_invalid.
  reflexivity.
Qed.

(** *** The [while] loop over the masks *)

Lemma while_mask_unfold {A} (body : Z → A → A) max_mask mask acc :
  IrSender.while_mask body max_mask mask acc
  = if decide (max_mask > mask ∧ mask > 0)
    then IrSender.while_mask body max_mask (Z.shiftl mask 1) (body mask acc)
    else acc.
Proof.
  rewrite IrSender.while_mask_equation_1.
  by destruct (decide (max_mask > mask ∧ mask > 0)).
Qed.

(** A property that every iteration preserves holds when the loop ends. *)
Lemma while_mask_invariant {A} (P : A → Prop) (body : Z → A → A)
    max_mask mask acc :
  (∀ m a, P a → P (body m a)) →
  P acc → P (IrSender.while_mask body max_mask mask acc).
Proof.
  intros Hbody.
  funelim (IrSender.while_mask body max_mask mask acc); intros Hacc.
  - apply H; auto.
  - assumption.
Qed.

(** Started at a power of two, the loop runs its body at the powers of
    two below [max_mask], in ascending order. *)
Lemma while_mask_pow2 {A} (body : Z → A → A) max_mask (j k : nat) acc :
  Z.of_nat (k + j) = Z.log2_up max_mask →
  IrSender.while_mask body max_mask (2 ^ Z.of_nat k) acc
  = foldl (λ a mask, body mask a) acc ((λ i, 2 ^ Z.of_nat i) <$> seq k j).
Proof.
  revert k acc. induction j as [|j IH]; intros k acc Hn.
  - rewrite while_mask_unfold. simpl.
    destruct (decide _) as [[Hlt _]|_]; [|done].
    destruct (Z.le_gt_cases max_mask 0) as [Hle|Hpos].
    + pose proof (Z.pow_pos_nonneg 2 (Z.of_nat k)). lia.
    + apply Z.gt_lt, Z.log2_up_lt_pow2 in Hlt; lia.
  - rewrite while_mask_unfold. simpl.
    assert (0 < max_mask) as Hpos.
    { destruct (Z.le_gt_cases max_mask 0) as [Hle|]; [|done].
      rewrite Z.log2_up_nonpos in Hn by done. lia. }
    assert (2 ^ Z.of_nat k < max_mask) as Hlt.
    { apply Z.log2_up_lt_pow2; lia. }
    pose proof (Z.pow_pos_nonneg 2 (Z.of_nat k)).
    destruct (decide _) as [_|Hno]; [|lia].
    rewrite Z.shiftl_mul_pow2, Z.pow_1_r, Z.mul_comm by lia.
    rewrite <- Z.pow_succ_r, <- Nat2Z.inj_succ by lia.
    apply IH. lia.
Qed.

(** The masks of one run, in closed form. *)
Lemma visited_masks_pow2 (max_mask : Z) :
  IrSender.visited_masks max_mask
  = (λ k, 2 ^ Z.of_nat k) <$> seq 0 (Z.to_nat (Z.log2_up max_mask)).
Proof.
  unfold IrSender.visited_masks.
  pose proof (Z.log2_up_nonneg max_mask) as Hn.
  change 1 with (2 ^ Z.of_nat 0).
  rewrite (while_mask_pow2 _ max_mask (Z.to_nat (Z.log2_up max_mask)) 0)
    by lia.
  generalize ((λ k, 2 ^ Z.of_nat k)
                <$> seq 0 (Z.to_nat (Z.log2_up max_mask))).
  intros l. induction l as [|x l IH] using rev_ind; [done|].
  by rewrite foldl_snoc, IH.
Qed.

(** One run of the loop is a fold of its body over [visited_masks]. *)
Lemma while_mask_visited {A} (body : Z → A → A) max_mask acc :
  IrSender.while_mask body max_mask 1 acc
  = foldl (λ a mask, body mask a) acc (IrSender.visited_masks max_mask).
Proof.
  rewrite visited_masks_pow2.
  pose proof (Z.log2_up_nonneg max_mask) as Hn.
  change 1 with (2 ^ Z.of_nat 0).
  apply while_mask_pow2. lia.
Qed.

(** *** The bit string of [send_data] *)

Lemma foldl_seq_ext {A} (f g : A → nat → A) (start len : nat) acc :
  (∀ a i, (start ≤ i < start + len)%nat → f a i = g a i) →
  foldl f acc (seq start len) = foldl g acc (seq start len).
Proof.
  revert start acc. induction len as [|len IH]; intros start acc Hfg; [done|].
  simpl. rewrite Hfg by lia. apply IH. intros a i Hi. apply Hfg. lia.
Qed.

(** A loop over the indices of a list that reads the list at the index is
    a fold over the list. *)
Lemma foldl_seq_lookup {A} (f : Z → A → A) (pre data : list Z) acc :
  foldl (λ a i, f ((pre ++ data) !!! i) a) acc (seq (length pre) (length data))
  = foldl (λ a byte, f byte a) acc data.
Proof.
  revert pre acc. induction data as [|x data IH]; intros pre acc; [done|].
  simpl. rewrite list_lookup_total_middle by done.
  replace (pre ++ x :: data) with ((pre ++ [x]) ++ data)
    by by rewrite <- app_assoc.
  replace (S (length pre)) with (length (pre ++ [x]))
    by (rewrite length_app; simpl; lia).
  apply IH.
Qed.

Lemma send_data_body_bit_string must_invert byte mask code :
  IrSender.send_data_body must_invert byte mask code
  = if must_invert then code ++ [bit_string byte mask]
    else [bit_string byte mask] ++ code.
Proof.
  unfold IrSender.send_data_body, bit_string.
  by destruct must_invert, (bool_decide _).
Qed.

Lemma while_mask_byte_bits must_invert byte max_mask code :
  IrSender.while_mask (IrSender.send_data_body must_invert byte)
    max_mask 1 code
  = if must_invert then code ++ byte_bits max_mask byte
    else reverse (byte_bits max_mask byte) ++ code.
Proof.
  rewrite while_mask_visited. unfold byte_bits.
  generalize (IrSender.visited_masks max_mask). intros masks.
  induction masks as [|mask masks IH] using rev_ind.
  - destruct must_invert; simpl; by rewrite ?app_nil_r.
  - rewrite foldl_snoc, IH, fmap_app, send_data_body_bit_string. simpl.
    destruct must_invert.
    + by rewrite <- app_assoc.
    + by rewrite reverse_app, reverse_singleton, <- app_assoc.
Qed.

(** With [must_invert], the bytes are taken first to last and the bits of
    each byte are appended in the order of the masks. *)
Lemma send_data_code_inverted data max_mask :
  IrSender.send_data_code data max_mask true
  = data ≫= byte_bits max_mask.
Proof.
  unfold IrSender.send_data_code, IrSender.send_data_idx.
  erewrite foldl_seq_ext; last first.
  { intros a i _. apply while_mask_byte_bits. }
  simpl.
  rewrite (foldl_seq_lookup (λ byte a, a ++ byte_bits max_mask byte) [] data).
  change (data ≫= byte_bits max_mask)
    with ([] ++ (data ≫= byte_bits max_mask)).
  generalize (@nil string). induction data as [|x data IH]; intros acc; simpl.
  - by rewrite app_nil_r.
  - by rewrite IH, app_assoc.
Qed.

(** Without [must_invert], the bytes are taken last to first and every bit
    is put in front, so the string reads first byte to last byte, each byte
    from its highest mask down. *)
Lemma send_data_code_not_inverted data max_mask :
  IrSender.send_data_code data max_mask false
  = data ≫= (λ byte, reverse (byte_bits max_mask byte)).
Proof.
  unfold IrSender.send_data_code, IrSender.send_data_idx.
  erewrite foldl_seq_ext; last first.
  { intros a i _. apply while_mask_byte_bits. }
  simpl.
  transitivity
    (foldl (λ a i, reverse (byte_bits max_mask (([] ++ reverse data) !!! i))
                   ++ a)
       [] (seq (length (@nil Z)) (length (reverse data)))).
  { rewrite length_reverse. simpl. apply foldl_seq_ext. intros a i Hi.
    do 3 f_equal. rewrite !list_lookup_total_alt.
    rewrite reverse_lookup by lia. do 2 f_equal. lia. }
  rewrite (foldl_seq_lookup
             (λ byte a, reverse (byte_bits max_mask byte) ++ a) []
             (reverse data)).
  rewrite <- (app_nil_r (data ≫= _)).
  generalize (@nil string). induction data as [|x data IH]; intros acc.
  - done.
  - rewrite reverse_cons, foldl_snoc, IH. simpl. by rewrite <- app_assoc.
Qed.

Lemma send_data_idx_lt (data : list Z) must_invert i :
  (i < length data)%nat →
  (IrSender.send_data_idx data must_invert i < length data)%nat.
Proof. unfold IrSender.send_data_idx. destruct must_invert; lia. Qed.

Lemma send_data_body_bit_strings must_invert byte mask code :
  bit_strings code →
  bit_strings (IrSender.send_data_body must_invert byte mask code).
Proof.
  unfold bit_strings, IrSender.send_data_body. intros Hc.
  destruct must_invert, (bool_decide _);
    repeat first [apply Forall_app_2 | apply Forall_cons_2
                 | apply Forall_nil_2 | assumption | by left | by right].
Qed.

Lemma send_data_code_bit_strings data max_mask must_invert :
  bit_strings (IrSender.send_data_code data max_mask must_invert).
Proof.
  unfold IrSender.send_data_code.
  generalize (seq 0 (length data)). intros l.
  assert (bit_strings []) as Hnil by constructor.
  revert Hnil. generalize (@nil string).
  induction l as [|i l IH]; intros code Hcode; simpl; [done|].
  apply IH, while_mask_invariant; [|done].
  intros m a. apply send_data_body_bit_strings.
Qed.

Lemma concat_bit_strings_valid code :
  bit_strings code → valid_ircode (String.concat "" code) = true.
Proof.
  induction 1 as [|c code Hc _ IH]; [done|].
  destruct code as [|c' code].
  - by destruct Hc as [-> | ->].
  - change (String.concat "" (c :: c' :: code))
      with (c +:+ "" +:+ String.concat "" (c' :: code)).
    set (rest := String.concat "" (c' :: code)) in *.
    destruct Hc as [-> | ->]; simpl; exact IH.
Qed.

Lemma send_data_code_valid data max_mask must_invert :
  valid_ircode
    (String.concat "" (IrSender.send_data_code data max_mask must_invert))
  = true.
Proof. apply concat_bit_strings_valid, send_data_code_bit_strings. Qed.

End IrSender_facts.

(** ** Claims about the sender and the modulator *)

Section Sender_claims.

Import Wave.

(** C2, as stated, fails: with the mask bound [0xFF] the loop of
    [send_data] takes the masks 1, 2, 4, ..., 128 in that order, which is
    the reverse of the order from the most significant set bit down to the
    least significant one. *)
Lemma send_data_masks_not_high_to_low :
  IrSender.visited_masks 0xFF = [1; 2; 4; 8; 16; 32; 64; 128]
  ∧ spec_visited_masks 0xFF = [128; 64; 32; 16; 8; 4; 2; 1]
  ∧ IrSender.visited_masks 0xFF ≠ spec_visited_masks 0xFF
  ∧ IrSender.send_data_code [0x01] 0xFF true
    = ["1"; "0"; "0"; "0"; "0"; "0"; "0"; "0"]%string.
Proof. vm_compute. repeat split; congruence. Qed.

(** C2, amended: for every bound [max_mask], the masks that the loop of
    [send_data] applies to each byte are the powers of two strictly below
    [max_mask], from 1 upwards (low to high); the loop run on any byte is
    the fold of its body over exactly these masks in this order. *)
Theorem send_data_masks_low_to_high (max_mask : Z) :
  IrSender.visited_masks max_mask
  = (λ k, 2 ^ Z.of_nat k) <$> seq 0 (Z.to_nat (Z.log2_up max_mask))
  ∧ (∀ mask, mask ∈ IrSender.visited_masks max_mask
             ↔ ∃ k : nat, mask = 2 ^ Z.of_nat k ∧ mask < max_mask)
  ∧ ∀ must_invert byte code,
      IrSender.while_mask (IrSender.send_data_body must_invert byte)
        max_mask 1 code
      = foldl (λ c mask, IrSender.send_data_body must_invert byte mask c)
          code (IrSender.visited_masks max_mask).
Proof.
  split; [apply visited_masks_pow2|]. split.
  - intros mask. rewrite visited_masks_pow2, list_elem_of_fmap.
    split.
    + intros (k & -> & [_ Hk]%elem_of_seq). exists k. split; [done|].
      destruct (Z.le_gt_cases max_mask 0) as [Hle|Hpos].
      * rewrite Z.log2_up_nonpos in Hk by done. simpl in Hk. lia.
      * apply Z.log2_up_lt_pow2; lia.
    + intros (k & -> & Hlt). exists k. split; [done|].
      apply elem_of_seq.
      assert (0 < max_mask) as Hpos.
      { pose proof (Z.pow_pos_nonneg 2 (Z.of_nat k)). lia. }
      apply Z.log2_up_lt_pow2 in Hlt; lia.
  - intros. apply while_mask_visited.
Qed.

(** C3, as stated, fails: with a leading pulse of 9000 and a leading gap
    of 0 the burst is emitted and a low entry (the value 0) follows the
    pulse, where the guarded burst of the specification has none. *)
Lemma leading_gap_zero_low_entry :
  let nec := NEC.init
               (NEC.mk_kwargs None (Some 9000) (Some 0)
                  None None None None None None) in
  NEC.leading_pulse_duration nec > 0
  ∧ NEC.leading_gap_duration nec = 0
  ∧ raw (exec (NEC.process_code "") nec) = [9000; 0; 562]
  ∧ raw (exec (NEC.process_code "") nec)
    ≠ raw nec ++ spec_leading nec ++ bits nec "" ++ trailing nec.
Proof. vm_compute. repeat split; congruence. Qed.

(** C3, amended: when the leading pulse or the leading gap is positive,
    [process_code] appends the high entry for the leading pulse and then
    the low entry for the leading gap, both without a further test, ahead
    of the marks and spaces of the symbols; only the gap of the trailing
    burst is tested. *)
Theorem leading_burst_unconditional (nec : NEC.t) (ircode : string) :
  NEC.leading_pulse_duration nec > 0 ∨ NEC.leading_gap_duration nec > 0 →
  raw (exec (NEC.process_code ircode) nec)
  = raw nec
    ++ [NEC.leading_pulse_duration nec; - NEC.leading_gap_duration nec]
    ++ bits nec (valid_prefix ircode)
    ++ (if valid_ircode ircode then trailing nec else []).
Proof.
  intros Hburst. unfold exec. rewrite process_code_emit.
  assert (leading nec
          = [NEC.leading_pulse_duration nec; - NEC.leading_gap_duration nec])
    as Hlead.
  { unfold leading.
    destruct Hburst as [H|H]; rewrite (bool_decide_eq_true_2 _ H);
      [done | by rewrite orb_true_r]. }
  destruct (valid_ircode ircode) eqn:Hv; simpl; rewrite raw_emit.
  - unfold full. by rewrite Hlead, valid_prefix_valid.
  - by rewrite Hlead, app_nil_r.
Qed.

Lemma leading_burst_unconditional_witness :
  raw (exec (NEC.process_code "01") (NEC.init NEC.no_kwargs))
  = [9000; -4500; 562; -562; 562; -1686; 562].
Proof.
  rewrite (leading_burst_unconditional (NEC.init NEC.no_kwargs) "01").
  - reflexivity.
  - left. simpl. lia.
Defined.

(** C4: a string with a symbol other than ["0"] and ["1"] makes
    [send_code] return the integer 1 in place of a list of durations, and
    a string of ["0"] and ["1"] only makes it return the list with every
    full emission, one per repetition, after what the sender held before;
    the same split decides the status that [process_code] returns. *)
Theorem send_code_all_or_nothing (sender : IrSender.t) (ircode : string)
    (nb : Z) :
  0 < nb →
  (if valid_ircode ircode
   then eval (IrSender.send_code ircode nb) sender
        = RawCodes (raw (IrSender.protocol sender)
                    ++ concat (replicate (Z.to_nat nb)
                                 (full (IrSender.protocol sender) ircode)))
   else eval (IrSender.send_code ircode nb) sender = Status 1)
  ∧ eval (NEC.process_code ircode) (IrSender.protocol sender)
    = (if valid_ircode ircode then 0 else 1).
Proof.
  intros Hnb. split.
  - destruct (valid_ircode ircode) eqn:Hv.
    + by apply send_code_valid.
    + by apply send_code_invalid.
  - unfold eval. rewrite process_code_emit.
    by destruct (valid_ircode ircode).
Qed.

Lemma send_code_all_or_nothing_witness :
  eval (IrSender.send_code "0x1" 2) (IrSender.init NEC.no_kwargs) = Status 1
  ∧ eval (IrSender.send_code "01" 2) (IrSender.init NEC.no_kwargs)
    = RawCodes [9000; -4500; 562; -562; 562; -1686; 562;
                9000; -4500; 562; -562; 562; -1686; 562].
Proof.
  split.
  - apply (send_code_all_or_nothing (IrSender.init NEC.no_kwargs) "0x1" 2).
    lia.
  - apply (send_code_all_or_nothing (IrSender.init NEC.no_kwargs) "01" 2).
    lia.
Defined.

Lemma length_concat_replicate {A} (n : nat) (w : list A) :
  length (concat (replicate n w)) = (n * length w)%nat.
Proof.
  induction n as [|n IH]; simpl; [done|]. by rewrite length_app, IH.
Qed.

(** [send_data] on any sender: the bit string is always valid, so the
    list comes back, with the repetitions after what the sender held. *)
Lemma send_data_raw_codes sender data max_mask must_invert nb :
  eval (IrSender.send_data data max_mask must_invert nb) sender
  = RawCodes
      (raw (IrSender.protocol sender)
       ++ concat (replicate (Z.to_nat nb)
            (full (IrSender.protocol sender)
               (String.concat ""
                  (IrSender.send_data_code data max_mask must_invert))))).
Proof.
  unfold IrSender.send_data. apply send_code_valid, send_data_code_valid.
Qed.

(** C5: on a sender as [IrSender(...)] makes it, [send_data] with [nb]
    repetitions, [nb >= 1], returns [nb] copies in a row of the list that
    it returns with one repetition, so the length is [nb] times the length
    for one repetition. *)
Theorem send_data_repetition (protocol_config : NEC.kwargs)
    (data : list Z) (max_mask : Z) (must_invert : bool) (nb : Z) :
  1 ≤ nb →
  ∃ once many,
    eval (IrSender.send_data data max_mask must_invert 1)
      (IrSender.init protocol_config) = RawCodes once
    ∧ eval (IrSender.send_data data max_mask must_invert nb)
        (IrSender.init protocol_config) = RawCodes many
    ∧ many = concat (replicate (Z.to_nat nb) once)
    ∧ Z.of_nat (length many) = nb * Z.of_nat (length once).
Proof.
  intros Hnb. rewrite !send_data_raw_codes. simpl.
  eexists _, _. split; [by rewrite app_nil_r|].
  split; [reflexivity|]. split; [reflexivity|].
  rewrite length_concat_replicate. lia.
Qed.

Lemma send_data_repetition_witness :
  ∃ once many,
    eval (IrSender.send_data [0x01] 0x03 true 1)
      (IrSender.init Mitsubishi.protocol_config) = RawCodes once
    ∧ eval (IrSender.send_data [0x01] 0x03 true 3)
        (IrSender.init Mitsubishi.protocol_config) = RawCodes many
    ∧ many = concat (replicate (Z.to_nat 3) once)
    ∧ Z.of_nat (length many) = 3 * Z.of_nat (length once).
Proof.
  apply (send_data_repetition Mitsubishi.protocol_config [0x01] 0x03 true 3).
  lia.
Defined.

End Sender_claims.

(** ** The frame builder *)

Section Frame_facts.

Import Frame.

Lemma climate2_modes m :
  m ∈ ClimateMode.modes ↔ is_Some (ClimateMode.climate2 m).
Proof.
  unfold ClimateMode.modes. rewrite !elem_of_cons, elem_of_nil. split.
  - intros [-> | [-> | [-> | [-> | []]]]]; by eexists.
  - intros [c2 Hc2]. unfold ClimateMode.climate2 in Hc2.
    repeat case_bool_decide; try discriminate Hc2; auto.
Qed.

(** The frame in closed form: the payload, then its sum modulo 256. *)
Lemma frame_payload s power_mode now :
  Mitsubishi.frame s power_mode now
  = (λ c2, let p := payload s power_mode now c2 in
           p ++ [builtins.sum p mod 256])
    <$> ClimateMode.climate2 (climate_mode s).
Proof.
  unfold Mitsubishi.frame, payload, ticks.
  destruct (ClimateMode.climate2 (climate_mode s)) as [c2|]; [|done].
  by destruct (end_time s), (start_time s).
Qed.

Lemma payload_length s power_mode now c2 :
  length (payload s power_mode now c2) = 17%nat.
Proof. reflexivity. Qed.

Lemma frame_is_Some s power_mode now :
  climate_mode s ∈ ClimateMode.modes →
  ∃ c2, ClimateMode.climate2 (climate_mode s) = Some c2
        ∧ Mitsubishi.frame s power_mode now
          = Some (payload s power_mode now c2
                  ++ [builtins.sum (payload s power_mode now c2) mod 256]).
Proof.
  intros [c2 Hc2]%climate2_modes. exists c2. split; [done|].
  by rewrite frame_payload, Hc2.
Qed.

(** A call on the address that [new] has just handed out reaches the
    new object, whatever the heap held before. *)
Lemma call_new {A} (o : IrSender.t) (m : State IrSender.t A) h :
  eval (addr <- Mitsubishi.new o ;; Mitsubishi.call addr m) h = eval m o.
Proof.
  unfold eval, bind, Mitsubishi.new, Mitsubishi.call. cbv beta iota.
  rewrite list_lookup_total_middle by done.
  by destruct (m o).
Qed.

(** A call on the new address leaves every older object as it was. *)
Lemma call_new_heap {A} (o : IrSender.t) (m : State IrSender.t A) h :
  exec (addr <- Mitsubishi.new o ;; Mitsubishi.call addr m) h
  = h ++ [exec m o].
Proof.
  unfold exec, bind, Mitsubishi.new, Mitsubishi.call. cbv beta iota.
  rewrite list_lookup_total_middle by done.
  destruct (m o) as [a o']. simpl.
  replace (length h) with (length h + 0)%nat by lia.
  by rewrite insert_app_r.
Qed.

(** [__send_command] adds one object to the heap and changes no other. *)
Lemma send_command_heap s power_mode now h :
  ∃ o, exec (Mitsubishi.__send_command s power_mode now) h = h ++ [o].
Proof.
  unfold Mitsubishi.__send_command.
  destruct (Mitsubishi.frame s power_mode now) as [data|].
  - set (o := IrSender.init Mitsubishi.protocol_config).
    set (m := IrSender.send_data data Constants.MaxMask true
                Constants.NbPackets).
    pose proof (call_new_heap o m h) as Hcall.
    unfold exec, bind in *.
    destruct (Mitsubishi.new o h) as [addr h1].
    destruct (Mitsubishi.call addr m h1) as [r h2]. simpl in *. eauto.
  - by eexists.
Qed.

(** What [__send_command] returns, on any heap. *)
Lemma send_command_eval s power_mode now h :
  eval (Mitsubishi.__send_command s power_mode now) h
  = (λ data, RawCodes (waveform data)) <$> Mitsubishi.frame s power_mode now.
Proof.
  unfold Mitsubishi.__send_command.
  destruct (Mitsubishi.frame s power_mode now) as [data|]; [|done].
  set (o := IrSender.init Mitsubishi.protocol_config).
  set (m := IrSender.send_data data Constants.MaxMask true
              Constants.NbPackets).
  pose proof (call_new o m h) as Hcall.
  unfold eval, bind in *.
  destruct (Mitsubishi.new o h) as [addr h1].
  destruct (Mitsubishi.call addr m h1) as [r h2]. simpl in *. subst r.
  pose proof (send_data_raw_codes o data Constants.MaxMask true
                Constants.NbPackets) as Hr.
  unfold eval in Hr. fold m in Hr. rewrite Hr.
  unfold waveform. simpl. by rewrite app_nil_r.
Qed.

End Frame_facts.

(** ** Claims about the frame and the commands *)

Section Frame_claims.

Import Frame.

(** C1: for every settings record with one of the four climate modes and
    every power mode, the builder produces a frame of 18 bytes whose last
    byte is the sum of the 17 bytes before it modulo 256. *)
Theorem frame_checksum (s : settings) (power_mode : Z) (now : time) :
  climate_mode s ∈ ClimateMode.modes →
  ∃ data, Mitsubishi.frame s power_mode now = Some data
          ∧ length data = 18%nat
          ∧ data !! 17%nat = Some (builtins.sum (take 17 data) mod 256).
Proof.
  intros Hmode.
  destruct (frame_is_Some s power_mode now Hmode) as (c2 & _ & ->).
  eexists. split; [reflexivity|]. split; reflexivity.
Qed.

Lemma frame_checksum_witness :
  ∃ data, Mitsubishi.frame Mitsubishi.default_settings PowerMode.PowerOn
            (mk_time 13 47) = Some data
          ∧ length data = 18%nat
          ∧ data !! 17%nat = Some (builtins.sum (take 17 data) mod 256).
Proof.
  apply (frame_checksum Mitsubishi.default_settings PowerMode.PowerOn
           (mk_time 13 47)).
  unfold ClimateMode.modes. simpl. repeat constructor.
Defined.

(** C6: for every integer temperature, the builder succeeds and stores
    [max(16, min(31, t)) - 16] at the temperature index, a value between
    0 and 15; the command returns a list of durations and no error; a
    temperature of 40 gives the byte 15. *)
Theorem temperature_byte_clamped (s : settings) (power_mode : Z)
    (now : time) (h : Mitsubishi.heap) :
  climate_mode s ∈ ClimateMode.modes →
  ∃ data byte,
    Mitsubishi.frame s power_mode now = Some data
    ∧ data !! Index.Temperature = Some byte
    ∧ byte = Z.max 16 (Z.min 31 (temperature s)) - 16
    ∧ 0 ≤ byte ≤ 15
    ∧ (temperature s = 40 → byte = 15)
    ∧ eval (Mitsubishi.__send_command s power_mode now) h
      = Some (RawCodes (waveform data)).
Proof.
  intros Hmode. rewrite send_command_eval.
  destruct (frame_is_Some s power_mode now Hmode) as (c2 & _ & ->).
  eexists _, _. split; [reflexivity|]. split; [reflexivity|].
  split; [reflexivity|]. split; [lia|]. split; [lia|]. reflexivity.
Qed.

Lemma temperature_byte_clamped_witness :
  ∃ data byte,
    Mitsubishi.frame
      (mk_settings ClimateMode.Cold 40 FanMode.Speed2 VanneVerticalMode.Top
         VanneHorizontalMode.NotSet ISeeMode.ISeeOff AreaMode.NotSet
         None None PowerfulMode.PowerfulOff)
      PowerMode.PowerOn (mk_time 13 47) = Some data
    ∧ data !! Index.Temperature = Some byte
    ∧ byte = 15.
Proof.
  destruct (temperature_byte_clamped
              (mk_settings ClimateMode.Cold 40 FanMode.Speed2
                 VanneVerticalMode.Top VanneHorizontalMode.NotSet
                 ISeeMode.ISeeOff AreaMode.NotSet None None
                 PowerfulMode.PowerfulOff)
              PowerMode.PowerOn (mk_time 13 47) [])
    as (data & byte & Hframe & Hbyte & _ & _ & H40 & _).
  - unfold ClimateMode.modes. simpl. repeat constructor.
  - exists data, byte. split; [exact Hframe|]. split; [exact Hbyte|].
    apply H40. reflexivity.
Defined.

(** C7: for every pair of optional start and end times, the time-control
    code is [ControlBoth] when both are set, [ControlEnd] when only the
    end is set, [ControlStart] when only the start is set and
    [NoTimeControl] when neither is; the four codes are pairwise distinct,
    so exactly one of them is chosen. *)
Theorem time_control_classification (start_time end_time : option time) :
  Mitsubishi.time_control start_time end_time
  = match start_time, end_time with
    | Some _, Some _ => TimeControlMode.ControlBoth
    | None, Some _ => TimeControlMode.ControlEnd
    | Some _, None => TimeControlMode.ControlStart
    | None, None => TimeControlMode.NoTimeControl
    end
  ∧ NoDup [TimeControlMode.NoTimeControl; TimeControlMode.ControlStart;
           TimeControlMode.ControlEnd; TimeControlMode.ControlBoth]
  ∧ ∃ i, (i < 4)%nat
         ∧ ∀ j, [TimeControlMode.NoTimeControl; TimeControlMode.ControlStart;
                 TimeControlMode.ControlEnd; TimeControlMode.ControlBoth]
                !! j = Some (Mitsubishi.time_control start_time end_time)
                ↔ j = i.
Proof.
  split; [by destruct start_time, end_time|].
  split.
  { apply NoDup_ListNoDup. vm_compute.
    repeat (constructor; [simpl; intuition discriminate|]). constructor. }
  destruct start_time, end_time; vm_compute;
    [exists 3%nat | exists 1%nat | exists 2%nat | exists 0%nat];
    (split; [lia|]); intros j;
    (split; [|by intros ->]);
    do 4 (destruct j as [|j]; try done).
Qed.

(** A sender that has already sent keeps its durations: the same call
    on the same object returns a longer list the second time.  The
    commands below never reuse a sender. *)
Lemma send_data_same_sender_accumulates :
  let sender := IrSender.init Mitsubishi.protocol_config in
  let m := IrSender.send_data [0x01] 0x03 true 1 in
  eval m sender = RawCodes [3400; -1750; 450; -1300; 450; -420; 440; -17100]
  ∧ eval m (exec m sender)
    = RawCodes [3400; -1750; 450; -1300; 450; -420; 440; -17100;
                3400; -1750; 450; -1300; 450; -420; 440; -17100].
Proof. vm_compute. split; reflexivity. Qed.

(** C8: [send_command] with the same settings and the same clock reading
    returns the same list of durations whatever objects earlier calls
    have left behind; in particular a second call, made on the heap that
    the first call leaves, returns what the first call returned.  A call
    adds its own sender to the heap and changes no object that was there.
    The same holds for [power_off]. *)
Theorem send_command_deterministic (s : settings) (now : time)
    (h h' : Mitsubishi.heap) :
  eval (Mitsubishi.send_command s now) h
  = eval (Mitsubishi.send_command s now) h'
  ∧ eval (Mitsubishi.send_command s now)
      (exec (Mitsubishi.send_command s now) h)
    = eval (Mitsubishi.send_command s now) h
  ∧ (∃ sender, exec (Mitsubishi.send_command s now) h = h ++ [sender])
  ∧ eval (Mitsubishi.power_off now) (exec (Mitsubishi.power_off now) h)
    = eval (Mitsubishi.power_off now) h.
Proof.
  unfold Mitsubishi.send_command, Mitsubishi.power_off.
  rewrite !send_command_eval. repeat split.
  apply send_command_heap.
Qed.

(** C9: [climate2] answers 0 for [Hot], 6 for [Cold], 2 for [Dry] and 0
    for [Auto], and [None] for every other integer; the frame is built
    exactly when the climate mode is one of these four codes, and with any
    other code the command ends in the TypeError and returns nothing. *)
Theorem climate2_partial :
  ClimateMode.climate2 ClimateMode.Hot = Some 0
  ∧ ClimateMode.climate2 ClimateMode.Cold = Some 6
  ∧ ClimateMode.climate2 ClimateMode.Dry = Some 2
  ∧ ClimateMode.climate2 ClimateMode.Auto = Some 0
  ∧ (∀ m, ClimateMode.climate2 m = None ↔ m ∉ ClimateMode.modes)
  ∧ (∀ s power_mode now,
       Mitsubishi.frame s power_mode now = None
       ↔ climate_mode s ∉ ClimateMode.modes)
  ∧ (∀ s power_mode now h,
       eval (Mitsubishi.__send_command s power_mode now) h = None
       ↔ climate_mode s ∉ ClimateMode.modes).
Proof.
  assert (∀ m, ClimateMode.climate2 m = None ↔ m ∉ ClimateMode.modes)
    as Hnone.
  { intros m. rewrite climate2_modes, eq_None_not_Some. done. }
  repeat split; try reflexivity; try apply Hnone.
  - rewrite frame_payload, fmap_None. apply Hnone.
  - rewrite frame_payload, fmap_None. apply Hnone.
  - rewrite send_command_eval, frame_payload, !fmap_None. apply Hnone.
  - rewrite send_command_eval, frame_payload, !fmap_None. apply Hnone.
Qed.

Lemma climate2_partial_witness :
  ClimateMode.climate2 0 = None
  ∧ Mitsubishi.frame
      (mk_settings 0 21 FanMode.Auto VanneVerticalMode.Auto
         VanneHorizontalMode.NotSet ISeeMode.ISeeOff AreaMode.NotSet
         None None PowerfulMode.PowerfulOff)
      PowerMode.PowerOn (mk_time 13 47) = None.
Proof.
  destruct climate2_partial as (_ & _ & _ & _ & Hc & Hf & _).
  assert (0 ∉ ClimateMode.modes) as Hnot.
  { unfold ClimateMode.modes. rewrite !not_elem_of_cons. vm_compute.
    repeat split; try discriminate. apply not_elem_of_nil. }
  split; [by apply Hc | by apply Hf].
Defined.

(** C10: in every frame that the builder produces, the bytes 0 to 4 are
    0x23, 0xCB, 0x26, 0x01 and 0x00, the byte 14 is 0x10 and the byte 16
    is 0x00, whatever the settings, the power mode and the clock are; the
    frame has 18 bytes. *)
Theorem frame_template_bytes (s : settings) (power_mode : Z) (now : time)
    (data : list Z) :
  Mitsubishi.frame s power_mode now = Some data →
  length data = 18%nat
  ∧ data !! Index.Header0 = Some 0x23
  ∧ data !! Index.Header1 = Some 0xCB
  ∧ data !! Index.Header2 = Some 0x26
  ∧ data !! Index.Header3 = Some 0x01
  ∧ data !! Index.Header4 = Some 0x00
  ∧ data !! Index.Unused14 = Some 0x10
  ∧ data !! Index.Unused16 = Some 0x00.
Proof.
  rewrite frame_payload.
  destruct (ClimateMode.climate2 (climate_mode s)) as [c2|]; [|done].
  intros [= <-]. repeat split.
Qed.

Lemma frame_template_bytes_witness :
  ∃ data,
    Mitsubishi.frame Mitsubishi.default_settings PowerMode.PowerOff
      (mk_time 23 59) = Some data
    ∧ take 5 data = [0x23; 0xCB; 0x26; 0x01; 0x00]
    ∧ data !! 14%nat = Some 0x10
    ∧ data !! 16%nat = Some 0x00.
Proof.
  eexists. split; [reflexivity|].
  destruct (frame_template_bytes Mitsubishi.default_settings
              PowerMode.PowerOff (mk_time 23 59) _ eq_refl)
    as (_ & _ & _ & _ & _ & _ & H14 & H16).
  split; [reflexivity|]. split; [exact H14 | exact H16].
Defined.

End Frame_claims.

(** ** Further properties of the sender *)

Section Sender_extras.

Import Wave Pulse.

Lemma length_byte_bits max_mask byte :
  length (byte_bits max_mask byte) = Z.to_nat (Z.log2_up max_mask).
Proof.
  unfold byte_bits. by rewrite visited_masks_pow2, !length_fmap, length_seq.
Qed.

Lemma length_bind_const {A B} (f : A → list B) (n : nat) (l : list A) :
  (∀ x, length (f x) = n) → length (l ≫= f) = (length l * n)%nat.
Proof.
  intros Hf. induction l as [|x l IH]; [done|].
  by rewrite bind_cons, length_app, Hf, IH.
Qed.

Lemma length_send_data_code data max_mask must_invert :
  length (IrSender.send_data_code data max_mask must_invert)
  = (length data * Z.to_nat (Z.log2_up max_mask))%nat.
Proof.
  destruct must_invert.
  - rewrite send_data_code_inverted.
    apply length_bind_const. intros. apply length_byte_bits.
  - rewrite send_data_code_not_inverted.
    apply length_bind_const. intros.
    by rewrite length_reverse, length_byte_bits.
Qed.

(** X1: the bit string of [send_data] has as many symbols per byte as
    there are powers of two strictly below [max_mask], that is
    [log2_up max_mask]: 8 for 0xFF, 7 for 0x80, none for a bound of 1 or
    less, whatever the bit order. *)
Theorem send_data_code_length (data : list Z) (max_mask : Z)
    (must_invert : bool) :
  length (IrSender.send_data_code data max_mask must_invert)
  = (length data * Z.to_nat (Z.log2_up max_mask))%nat
  ∧ (max_mask ≤ 1 → IrSender.send_data_code data max_mask must_invert = [])
  ∧ (max_mask = 0xFF →
     length (IrSender.send_data_code data max_mask must_invert)
     = (8 * length data)%nat)
  ∧ (max_mask = 0x80 →
     length (IrSender.send_data_code data max_mask must_invert)
     = (7 * length data)%nat).
Proof.
  split; [apply length_send_data_code|]. split; [|split].
  - intros Hle. apply nil_length_inv. rewrite length_send_data_code.
    assert (Z.log2_up max_mask = 0) as ->; [|simpl; lia].
    destruct (Z.le_gt_cases max_mask 0); [by apply Z.log2_up_nonpos|].
    by replace max_mask with 1 by lia.
  - intros ->. rewrite length_send_data_code.
    change (Z.to_nat (Z.log2_up 255)) with 8%nat. lia.
  - intros ->. rewrite length_send_data_code.
    change (Z.to_nat (Z.log2_up 128)) with 7%nat. lia.
Qed.

Lemma send_data_code_length_witness :
  IrSender.send_data_code [0x23; 0xCB] 1 true = []
  ∧ length (IrSender.send_data_code [0x23; 0xCB] 0xFF true) = 16%nat
  ∧ length (IrSender.send_data_code [0x23; 0xCB] 0x80 true) = 14%nat.
Proof.
  destruct (send_data_code_length [0x23; 0xCB] 1 true) as (_ & H1 & _).
  destruct (send_data_code_length [0x23; 0xCB] 0xFF true) as (_ & _ & H8 & _).
  destruct (send_data_code_length [0x23; 0xCB] 0x80 true) as (_ & _ & _ & H7).
  split; [apply H1; lia|]. split; [by apply H8 | by apply H7].
Defined.

Lemma length_concat_bit_strings code :
  bit_strings code → String.length (String.concat "" code) = length code.
Proof.
  induction 1 as [|c code Hc _ IH]; [done|].
  destruct code as [|c' code].
  - by destruct Hc as [-> | ->].
  - change (String.concat "" (c :: c' :: code))
      with (c +:+ "" +:+ String.concat "" (c' :: code)).
    set (rest := String.concat "" (c' :: code)) in *.
    destruct Hc as [-> | ->]; simpl; f_equal; exact IH.
Qed.

Lemma length_bits nec ircode :
  length (bits nec ircode) = (2 * String.length ircode)%nat.
Proof.
  induction ircode as [|i rest IH]; [done|].
  cbn [bits String.length]. rewrite length_app, IH.
  destruct (bool_decide _); simpl; lia.
Qed.

(** The length of one emission of the bit string of [send_data]. *)
Lemma length_full_send_data_code nec data max_mask must_invert :
  length (full nec (String.concat ""
                      (IrSender.send_data_code data max_mask must_invert)))
  = (length (leading nec)
     + 2 * (length data * Z.to_nat (Z.log2_up max_mask))
     + length (trailing nec))%nat.
Proof.
  unfold full. rewrite !length_app, length_bits.
  rewrite length_concat_bit_strings by apply send_data_code_bit_strings.
  rewrite length_send_data_code. lia.
Qed.

(** X2: whenever [__send_command] returns a list, the list has 584
    entries: two emissions of 2 entries for the header, 2 for each of the
    144 bits of the 18 bytes, and 2 for the trailer. *)
Theorem send_command_length (s : settings) (power_mode : Z) (now : time)
    (h : Mitsubishi.heap) (codes : list Z) :
  eval (Mitsubishi.__send_command s power_mode now) h = Some (RawCodes codes) →
  length codes = 584%nat.
Proof.
  rewrite send_command_eval, frame_payload.
  destruct (ClimateMode.climate2 (climate_mode s)) as [c2|]; [|done].
  intros [= <-]. unfold Frame.waveform.
  rewrite length_app, length_full_send_data_code. reflexivity.
Qed.

Lemma send_command_length_witness :
  ∃ codes,
    eval (Mitsubishi.send_command Mitsubishi.default_settings (mk_time 7 30))
      [] = Some (RawCodes codes)
    ∧ length codes = 584%nat.
Proof.
  eexists. split; [vm_compute; reflexivity|].
  apply (send_command_length Mitsubishi.default_settings PowerMode.PowerOn
           (mk_time 7 30) []).
  vm_compute. reflexivity.
Defined.

(** X3: [__send_command] never returns the error status of [send_code]:
    it ends in the TypeError of the frame builder or returns a list. *)
Theorem send_command_never_status (s : settings) (power_mode : Z)
    (now : time) (h : Mitsubishi.heap) (code : Z) :
  eval (Mitsubishi.__send_command s power_mode now) h ≠ Some (Status code).
Proof.
  rewrite send_command_eval.
  by destruct (Mitsubishi.frame s power_mode now).
Qed.

Lemma alternates_app l1 l2 :
  alternates l1 → alternates l2 → alternates (l1 ++ l2).
Proof.
  revert l1. fix IH 1. intros [|mark [|space rest]]; simpl.
  - done.
  - done.
  - intros (Hm & Hs & Hrest) Hl2. split; [done|]. split; [done|].
    by apply IH.
Qed.

Lemma alternates_concat_replicate n w :
  alternates w → alternates (concat (replicate n w)).
Proof.
  intros Hw. induction n as [|n IH]; simpl; [done|]. by apply alternates_app.
Qed.

Lemma alternates_full nec ircode :
  positive_timing nec → alternates (full nec ircode).
Proof.
  intros (Hlp & Hlg & Hop & Hog & Hzp & Hzg & Htp & Htg).
  unfold full. repeat apply alternates_app.
  - unfold leading. rewrite (bool_decide_eq_true_2 _ Hlp). simpl.
    repeat split; lia.
  - induction ircode as [|i rest IH]; [done|].
    cbn [bits]. apply alternates_app; [|done].
    destruct (bool_decide _); simpl; repeat split; lia.
  - unfold trailing.
    rewrite (bool_decide_eq_true_2 _ Htp), (bool_decide_eq_true_2 _ Htg).
    simpl. repeat split; lia.
Qed.

(** X4: when the eight durations of the configuration are positive, the
    list that [send_data] returns on a new sender is a sequence of pairs, a
    positive mark followed by a negative space: it starts with a mark, ends
    with a space, and no two entries of one sign are adjacent. *)
Theorem send_data_alternates (protocol_config : NEC.kwargs) (data : list Z)
    (max_mask : Z) (must_invert : bool) (nb : Z) (codes : list Z) :
  positive_timing (NEC.init protocol_config) →
  eval (IrSender.send_data data max_mask must_invert nb)
    (IrSender.init protocol_config) = RawCodes codes →
  alternates codes.
Proof.
  intros Hpos. rewrite send_data_raw_codes. intros [= <-]. simpl.
  by apply alternates_concat_replicate, alternates_full.
Qed.

Lemma send_data_alternates_witness :
  ∃ codes,
    eval (IrSender.send_data [0x23; 0xCB] 0xFF true 2)
      (IrSender.init Mitsubishi.protocol_config) = RawCodes codes
    ∧ alternates codes.
Proof.
  eexists. split; [vm_compute; reflexivity|].
  apply (send_data_alternates Mitsubishi.protocol_config [0x23; 0xCB]
           0xFF true 2).
  - vm_compute. repeat split.
  - vm_compute. reflexivity.
Defined.

(** With the defaults of [NEC] the trailing gap is 0 and is not emitted:
    two emissions in a row then put the trailing mark next to the leading
    mark. *)
Lemma default_timing_adjacent_marks :
  eval (IrSender.send_code "" 2) (IrSender.init NEC.no_kwargs)
  = RawCodes [9000; -4500; 562; 9000; -4500; 562].
Proof. reflexivity. Qed.

(** *** Bits of a byte *)

Lemma land_pow2_testbit (a k : Z) :
  0 ≤ k → (Z.land a (2 ^ k) ≠ 0 ↔ Z.testbit a k = true).
Proof.
  intros Hk. split.
  - intros Hne. destruct (Z.testbit a k) eqn:Hbit; [done|].
    exfalso. apply Hne. apply Z.bits_inj'. intros m Hm.
    rewrite Z.land_spec, Z.pow2_bits_eqb, Z.bits_0 by done.
    destruct (Z.eqb_spec k m) as [<-|]; [by rewrite Hbit|].
    apply andb_false_r.
  - intros Hbit Hzero.
    assert (Z.testbit (Z.land a (2 ^ k)) k = true) as Hk'.
    { rewrite Z.land_spec, Z.pow2_bits_eqb, Hbit, Z.eqb_refl by done. done. }
    rewrite Hzero, Z.bits_0 in Hk'. done.
Qed.

Lemma bit_string_testbit (byte : Z) (k : nat) :
  bit_string byte (2 ^ Z.of_nat k)
  = if Z.testbit byte (Z.of_nat k) then "1"%string else "0"%string.
Proof.
  unfold bit_string.
  pose proof (land_pow2_testbit byte (Z.of_nat k) ltac:(lia)) as Hiff.
  case_bool_decide as Hd.
  - by rewrite (proj1 Hiff Hd).
  - destruct (Z.testbit byte (Z.of_nat k)); [|done].
    exfalso. by apply (proj2 Hiff).
Qed.

(** The symbols of a byte are its bits 0, 1, ... in this order. *)
Lemma byte_bits_testbit max_mask byte :
  byte_bits max_mask byte
  = (λ k : nat, if Z.testbit byte (Z.of_nat k)
                then "1"%string else "0"%string)
    <$> seq 0 (Z.to_nat (Z.log2_up max_mask)).
Proof.
  unfold byte_bits. rewrite visited_masks_pow2, <- list_fmap_compose.
  apply list_fmap_ext. intros _ k _. simpl. apply bit_string_testbit.
Qed.

Lemma byte_bits_eq_iff max_mask b1 b2 :
  byte_bits max_mask b1 = byte_bits max_mask b2
  ↔ b1 mod 2 ^ Z.log2_up max_mask = b2 mod 2 ^ Z.log2_up max_mask.
Proof.
  rewrite !byte_bits_testbit.
  pose proof (Z.log2_up_nonneg max_mask) as Hn.
  set (n := Z.log2_up max_mask) in *.
  split.
  - intros Heq. apply Z.bits_inj'. intros m Hm.
    destruct (Z.lt_ge_cases m n) as [Hlt|Hge].
    + rewrite !Z.mod_pow2_bits_low by done.
      assert (Z.to_nat m ∈ seq 0 (Z.to_nat n)) as Hin
        by (apply elem_of_seq; lia).
      apply list_elem_of_lookup in Hin as [i Hi].
      apply (f_equal (λ l, l !! i)) in Heq.
      rewrite !list_lookup_fmap, Hi in Heq. simpl in Heq.
      rewrite Z2Nat.id in Heq by done.
      by destruct (Z.testbit b1 m), (Z.testbit b2 m).
    + by rewrite !Z.mod_pow2_bits_high by lia.
  - intros Heq. apply list_fmap_ext. intros _ k [_ Hk]%list_elem_of_lookup_2%elem_of_seq.
    simpl.
    rewrite <- (Z.mod_pow2_bits_low b1 n), <- (Z.mod_pow2_bits_low b2 n)
      by lia.
    by rewrite Heq.
Qed.

Lemma bind_fmap_list {A B C} (f : A → B) (g : B → list C) (l : list A) :
  (f <$> l) ≫= g = l ≫= (λ x, g (f x)).
Proof.
  induction l as [|x l IH]; [done|].
  by rewrite fmap_cons, !bind_cons, IH.
Qed.

Lemma bind_ext_list {A B} (f g : A → list B) (l : list A) :
  (∀ x, f x = g x) → l ≫= f = l ≫= g.
Proof.
  intros Hfg. induction l as [|x l IH]; [done|].
  by rewrite !bind_cons, Hfg, IH.
Qed.

(** X5: [send_data] reads each element of [data] through the masks below
    [max_mask] only, so an element counts modulo [2 ^ log2_up max_mask]
    (modulo 256 for 0xFF): larger or negative elements are sent reduced,
    with no error. *)
Theorem send_data_code_mod (data : list Z) (max_mask : Z)
    (must_invert : bool) :
  IrSender.send_data_code
    ((λ byte, byte mod 2 ^ Z.log2_up max_mask) <$> data) max_mask must_invert
  = IrSender.send_data_code data max_mask must_invert.
Proof.
  assert (∀ byte, byte_bits max_mask (byte mod 2 ^ Z.log2_up max_mask)
                  = byte_bits max_mask byte) as Hmod.
  { intros byte. apply byte_bits_eq_iff.
    pose proof (Z.log2_up_nonneg max_mask).
    apply Z.mod_mod. pose proof (Z.pow_pos_nonneg 2 (Z.log2_up max_mask)). lia. }
  destruct must_invert.
  - rewrite !send_data_code_inverted, bind_fmap_list.
    apply bind_ext_list. intros. apply Hmod.
  - rewrite !send_data_code_not_inverted, bind_fmap_list.
    apply bind_ext_list. intros. by rewrite Hmod.
Qed.

(** *** Different data, different lists *)

Lemma concat_replicate_inj {A} (n : nat) (w1 w2 : list A) :
  (0 < n)%nat →
  concat (replicate n w1) = concat (replicate n w2) → w1 = w2.
Proof.
  intros Hn Heq. destruct n as [|n]; [lia|]. simpl in Heq.
  apply app_inj_1 in Heq as [? _]; [done|].
  apply (f_equal length) in Heq.
  rewrite !length_app, !length_concat_replicate in Heq. nia.
Qed.

Lemma valid_ircode_cons i rest :
  valid_ircode (String i rest) = true →
  (i = "0"%char ∨ i = "1"%char) ∧ valid_ircode rest = true.
Proof.
  simpl. intros [Hi Hrest]%andb_true_iff. split; [|done].
  apply orb_true_iff in Hi as [Hi|Hi]; apply bool_decide_eq_true_1 in Hi; auto.
Qed.

Lemma bits_inj nec c1 c2 :
  distinct_symbols nec →
  valid_ircode c1 = true → valid_ircode c2 = true →
  bits nec c1 = bits nec c2 → c1 = c2.
Proof.
  intros Hdist. revert c2.
  induction c1 as [|i c1 IH]; intros [|j c2] Hv1 Hv2 Heq.
  - done.
  - cbn [bits] in Heq. by destruct (bool_decide (j = "0"%char)).
  - cbn [bits] in Heq. by destruct (bool_decide (i = "0"%char)).
  - apply valid_ircode_cons in Hv1 as [Hi Hv1].
    apply valid_ircode_cons in Hv2 as [Hj Hv2].
    cbn [bits] in Heq.
    destruct Hi as [-> | ->], Hj as [-> | ->]; simpl in Heq.
    + f_equal. apply IH; [done..|]. congruence.
    + exfalso. injection Heq as Hp Hg _. destruct Hdist as [Hd|Hd]; lia.
    + exfalso. injection Heq as Hp Hg _. destruct Hdist as [Hd|Hd]; lia.
    + f_equal. apply IH; [done..|]. congruence.
Qed.

Lemma full_inj nec c1 c2 :
  distinct_symbols nec →
  valid_ircode c1 = true → valid_ircode c2 = true →
  full nec c1 = full nec c2 → c1 = c2.
Proof.
  unfold full. intros Hdist Hv1 Hv2 Heq.
  apply app_inv_head, app_inv_tail in Heq. by apply (bits_inj nec).
Qed.

Lemma concat_cons_bit_string c code :
  c = "0"%string ∨ c = "1"%string →
  String.concat "" (c :: code) = c +:+ String.concat "" code.
Proof. intros [-> | ->]; by destruct code. Qed.

Lemma concat_bit_strings_inj l1 l2 :
  bit_strings l1 → bit_strings l2 →
  String.concat "" l1 = String.concat "" l2 → l1 = l2.
Proof.
  unfold bit_strings. intros H1. revert l2.
  induction H1 as [|c1 l1 Hc1 _ IH]; intros l2 H2 Heq;
    destruct H2 as [|c2 l2 Hc2 H2].
  - done.
  - rewrite concat_cons_bit_string in Heq by done.
    by destruct Hc2 as [-> | ->].
  - rewrite concat_cons_bit_string in Heq by done.
    by destruct Hc1 as [-> | ->].
  - rewrite !concat_cons_bit_string in Heq by done.
    destruct Hc1 as [-> | ->], Hc2 as [-> | ->]; simpl in Heq;
      try discriminate Heq; injection Heq as Heq; f_equal; by apply IH.
Qed.

Lemma bind_inj_chunks {A B} (f : A → list B) (P : A → Prop) (n : nat)
    (l1 l2 : list A) :
  (0 < n)%nat →
  (∀ x, length (f x) = n) →
  (∀ x y, P x → P y → f x = f y → x = y) →
  Forall P l1 → Forall P l2 →
  l1 ≫= f = l2 ≫= f → l1 = l2.
Proof.
  intros Hn Hlen Hinj H1. revert l2.
  induction H1 as [|x l1 Hx _ IH]; intros l2 H2 Heq;
    destruct H2 as [|y l2 Hy H2].
  - done.
  - apply (f_equal length) in Heq.
    rewrite bind_cons, length_app, Hlen in Heq. simpl in Heq. lia.
  - apply (f_equal length) in Heq.
    rewrite bind_cons, length_app, Hlen in Heq. simpl in Heq. lia.
  - rewrite !bind_cons in Heq.
    apply app_inj_1 in Heq as [Hxy Hrest]; [|by rewrite !Hlen].
    f_equal; [by apply Hinj | by apply IH].
Qed.

Lemma send_data_code_inj max_mask must_invert d1 d2 :
  1 < max_mask →
  Forall (λ b, 0 ≤ b < 2 ^ Z.log2_up max_mask) d1 →
  Forall (λ b, 0 ≤ b < 2 ^ Z.log2_up max_mask) d2 →
  IrSender.send_data_code d1 max_mask must_invert
  = IrSender.send_data_code d2 max_mask must_invert →
  d1 = d2.
Proof.
  intros Hmask Hd1 Hd2.
  assert (0 < Z.to_nat (Z.log2_up max_mask))%nat as Hn.
  { pose proof (Z.log2_up_pos max_mask Hmask). lia. }
  assert (∀ x y, 0 ≤ x < 2 ^ Z.log2_up max_mask →
                 0 ≤ y < 2 ^ Z.log2_up max_mask →
                 byte_bits max_mask x = byte_bits max_mask y → x = y)
    as Hinj.
  { intros x y Hx Hy Heq%byte_bits_eq_iff.
    by rewrite !Z.mod_small in Heq. }
  set (P := λ b, 0 ≤ b < 2 ^ Z.log2_up max_mask) in *.
  destruct must_invert.
  - rewrite !send_data_code_inverted.
    apply (bind_inj_chunks _ P _ _ _ Hn); auto using length_byte_bits.
  - rewrite !send_data_code_not_inverted.
    apply (bind_inj_chunks _ P _ _ _ Hn); auto.
    + intros. by rewrite length_reverse, length_byte_bits.
    + intros x y Hx Hy Heq. apply Hinj; [done..|].
      by apply (inj reverse).
Qed.

(** X6: different data give different lists.  When the marks and spaces
    of the two symbols differ, the bound is above 1 and there is at least
    one repetition, two lists of elements below [2 ^ log2_up max_mask]
    (bytes, for 0xFF) for which [send_data] returns the same durations on a
    new sender are equal. *)
Theorem send_data_injective (protocol_config : NEC.kwargs)
    (d1 d2 : list Z) (max_mask : Z) (must_invert : bool) (nb : Z) :
  distinct_symbols (NEC.init protocol_config) →
  1 < max_mask →
  1 ≤ nb →
  Forall (λ b, 0 ≤ b < 2 ^ Z.log2_up max_mask) d1 →
  Forall (λ b, 0 ≤ b < 2 ^ Z.log2_up max_mask) d2 →
  eval (IrSender.send_data d1 max_mask must_invert nb)
    (IrSender.init protocol_config)
  = eval (IrSender.send_data d2 max_mask must_invert nb)
      (IrSender.init protocol_config) →
  d1 = d2.
Proof.
  intros Hdist Hmask Hnb Hd1 Hd2. rewrite !send_data_raw_codes. simpl.
  intros [= Heq].
  apply concat_replicate_inj in Heq; [|lia].
  apply full_inj in Heq; auto using send_data_code_valid.
  apply concat_bit_strings_inj in Heq;
    auto using send_data_code_bit_strings.
  by apply send_data_code_inj in Heq.
Qed.

Lemma send_data_injective_witness :
  eval (IrSender.send_data [0x23; 0xCB] 0xFF true 2)
    (IrSender.init Mitsubishi.protocol_config)
  ≠ eval (IrSender.send_data [0x23; 0xCA] 0xFF true 2)
      (IrSender.init Mitsubishi.protocol_config).
Proof.
  intros Heq.
  apply (send_data_injective Mitsubishi.protocol_config [0x23; 0xCB]
           [0x23; 0xCA] 0xFF true 2) in Heq.
  - discriminate Heq.
  - right. vm_compute. discriminate.
  - lia.
  - lia.
  - repeat constructor; vm_compute; discriminate.
  - repeat constructor; vm_compute; discriminate.
Defined.

(** *** The two bit orders *)

Lemma reverse_bind {A B} (f : A → list B) (l : list A) :
  reverse (l ≫= f) = reverse l ≫= (λ x, reverse (f x)).
Proof.
  induction l as [|x l IH]; [done|].
  rewrite bind_cons, reverse_app, IH, reverse_cons, bind_app.
  f_equal. simpl. by rewrite app_nil_r.
Qed.

(** X7: the two bit orders mirror each other: the bit string of [data]
    without [must_invert] is the bit string of the reversed [data] with
    [must_invert], read backwards. *)
Theorem send_data_code_mirror (data : list Z) (max_mask : Z) :
  IrSender.send_data_code data max_mask false
  = reverse (IrSender.send_data_code (reverse data) max_mask true).
Proof.
  rewrite send_data_code_not_inverted, send_data_code_inverted.
  by rewrite reverse_bind, reverse_involutive.
Qed.

(** *** What a failed or empty call leaves behind *)

Lemma send_code_invalid_exec ircode nb sender :
  0 < nb →
  valid_ircode ircode = false →
  exec (IrSender.send_code ircode nb) sender
  = IrSender.mk
      (emit (leading (IrSender.protocol sender)
             ++ bits (IrSender.protocol sender) (valid_prefix ircode))
         (IrSender.protocol sender)).
Proof.
  intros Hnb Hv. destruct sender as [nec]. unfold exec, IrSender.send_code.
  destruct (Z.to_nat nb) as [|n] eqn:Hn; [lia|].
  erewrite bind_eq by by apply for_range_invalid.
  reflexivity.
Qed.

(** X8: a failed [send_code] is not undone.  After a call with an invalid
    string and at least one repetition, the sender keeps the leading burst
    and the marks and spaces of the symbols before the invalid one, and the
    next call on this sender returns them ahead of its own emission. *)
Theorem send_code_failure_is_kept (sender : IrSender.t)
    (bad good : string) (nb : Z) :
  0 < nb →
  valid_ircode bad = false →
  valid_ircode good = true →
  eval (IrSender.send_code bad nb) sender = Status 1
  ∧ eval (IrSender.send_code good 1)
      (exec (IrSender.send_code bad nb) sender)
    = RawCodes (raw (IrSender.protocol sender)
                ++ leading (IrSender.protocol sender)
                ++ bits (IrSender.protocol sender) (valid_prefix bad)
                ++ full (IrSender.protocol sender) good).
Proof.
  intros Hnb Hbad Hgood. split; [by apply send_code_invalid|].
  rewrite send_code_invalid_exec, send_code_valid by done. simpl.
  rewrite raw_emit, full_emit, app_nil_r. by rewrite <- !app_assoc.
Qed.

Lemma send_code_failure_is_kept_witness :
  eval (IrSender.send_code "1" 1)
    (exec (IrSender.send_code "0x" 1) (IrSender.init NEC.no_kwargs))
  = RawCodes [9000; -4500; 562; -562; 9000; -4500; 562; -1686; 562].
Proof.
  apply (send_code_failure_is_kept (IrSender.init NEC.no_kwargs) "0x" "1" 1).
  - lia.
  - reflexivity.
  - reflexivity.
Defined.

(** X9: with a repetition count of 0 or less [send_code] processes
    nothing: it returns the list that the sender already holds and leaves
    the sender as it is, also for a string with invalid symbols, which is
    then not reported. *)
Theorem send_code_no_repetition (sender : IrSender.t) (ircode : string)
    (nb : Z) :
  nb ≤ 0 →
  IrSender.send_code ircode nb sender
  = (RawCodes (raw (IrSender.protocol sender)), sender).
Proof.
  intros Hnb. unfold IrSender.send_code.
  replace (Z.to_nat nb) with 0%nat by lia. reflexivity.
Qed.

Lemma send_code_no_repetition_witness :
  IrSender.send_code "0x1" 0 (IrSender.init NEC.no_kwargs)
  = (RawCodes [], IrSender.init NEC.no_kwargs).
Proof.
  apply (send_code_no_repetition (IrSender.init NEC.no_kwargs) "0x1" 0). lia.
Defined.

End Sender_extras.

(** ** Further properties of the frame *)

Section Frame_extras.

Import Frame Pulse.

Lemma lor_byte (a b : Z) :
  0 ≤ a < 256 → 0 ≤ b < 256 → 0 ≤ Z.lor a b < 256.
Proof.
  intros Ha Hb. split; [apply Z.lor_nonneg; lia|].
  destruct (Z.eq_dec (Z.lor a b) 0) as [->|Hne]; [lia|].
  assert (0 ≤ Z.lor a b) as Hnn by (apply Z.lor_nonneg; lia).
  change 256 with (2 ^ 8). apply Z.log2_lt_pow2; [lia|].
  rewrite Z.log2_lor by lia.
  destruct (Z.eq_dec a 0) as [->|Ha0], (Z.eq_dec b 0) as [->|Hb0];
    simpl; try lia.
  - assert (Z.log2 b < 8) by (apply Z.log2_lt_pow2; simpl; lia). lia.
  - assert (Z.log2 a < 8) by (apply Z.log2_lt_pow2; simpl; lia).
    rewrite Z.max_l; [done|]. simpl. apply Z.log2_nonneg.
  - assert (Z.log2 a < 8) by (apply Z.log2_lt_pow2; simpl; lia).
    assert (Z.log2 b < 8) by (apply Z.log2_lt_pow2; simpl; lia). lia.
Qed.

Lemma ticks_range t :
  optional_time_of_day t → 0 ≤ ticks t ≤ 143.
Proof.
  destruct t as [[h m]|]; simpl; [|lia].
  intros [Hh Hm]. simpl in *.
  assert (0 ≤ m / 10) by (apply Z.div_pos; lia).
  assert (m / 10 < 6) by (apply Z.div_lt_upper_bound; lia). lia.
Qed.

Lemma climate2_byte m c2 :
  ClimateMode.climate2 m = Some c2 → 0 ≤ c2 < 256.
Proof.
  unfold ClimateMode.climate2.
  repeat case_bool_decide; intros [= <-]; vm_compute; split; congruence.
Qed.

Lemma time_control_byte t1 t2 : 0 ≤ Mitsubishi.time_control t1 t2 < 256.
Proof. destruct t1, t2; vm_compute; split; congruence. Qed.

Lemma frame_is_bytes (s : settings) (power_mode : Z) (now : time)
    (data : list Z) :
  byte_settings s →
  0 ≤ power_mode < 256 →
  time_of_day now →
  Mitsubishi.frame s power_mode now = Some data →
  bytes data.
Proof.
  intros (Hcodes & Hstart & Hend) Hpower Hnow.
  rewrite frame_payload.
  destruct (ClimateMode.climate2 (climate_mode s)) as [c2|] eqn:Hc2; [|done].
  intros [= <-]. apply climate2_byte in Hc2.
  unfold bytes in *.
  repeat match goal with
         | H : Forall _ (_ :: _) |- _ => apply Forall_cons_1 in H as [? H]
         end.
  pose proof (ticks_range _ Hstart). pose proof (ticks_range _ Hend).
  pose proof (ticks_range (Some now) Hnow) as Hclock. simpl in Hclock.
  pose proof (time_control_byte (start_time s) (end_time s)).
  unfold payload. simpl.
  repeat apply Forall_cons_2; try apply Forall_nil_2;
    try (apply lor_byte; assumption); try lia.
  apply Z.mod_pos_bound. lia.
Qed.

(** X10: when every code of the settings and the power mode are byte
    values and the clock and the scheduled times are times of day, every
    element of the frame is a byte value, for any integer temperature. *)
Theorem frame_bytes (s : settings) (power_mode : Z) (now : time)
    (data : list Z) :
  byte_settings s →
  0 ≤ power_mode < 256 →
  time_of_day now →
  Mitsubishi.frame s power_mode now = Some data →
  bytes data.
Proof. apply frame_is_bytes. Qed.

Lemma frame_bytes_witness :
  ∃ data,
    Mitsubishi.frame
      (mk_settings ClimateMode.Cold 40 FanMode.Speed2 VanneVerticalMode.Top
         VanneHorizontalMode.Swing ISeeMode.ISeeOn AreaMode.Full
         (Some (mk_time 6 45)) (Some (mk_time 23 59))
         PowerfulMode.PowerfulOn)
      PowerMode.PowerOn (mk_time 13 47) = Some data
    ∧ bytes data.
Proof.
  eexists. split; [reflexivity|].
  eapply (frame_bytes
            (mk_settings ClimateMode.Cold 40 FanMode.Speed2
               VanneVerticalMode.Top VanneHorizontalMode.Swing
               ISeeMode.ISeeOn AreaMode.Full (Some (mk_time 6 45))
               (Some (mk_time 23 59)) PowerfulMode.PowerfulOn)
            PowerMode.PowerOn (mk_time 13 47)).
  - split; [|split].
    + repeat constructor; vm_compute; congruence.
    + vm_compute. repeat split; congruence.
    + vm_compute. repeat split; congruence.
  - vm_compute. split; congruence.
  - vm_compute. repeat split; congruence.
  - reflexivity.
Defined.

Lemma waveform_inj d1 d2 :
  bytes d1 → bytes d2 → waveform d1 = waveform d2 → d1 = d2.
Proof.
  intros H1 H2 Heq. unfold waveform in Heq.
  apply app_inj_1 in Heq as [Heq _].
  - apply full_inj in Heq; auto using send_data_code_valid.
    + apply concat_bit_strings_inj in Heq;
        auto using send_data_code_bit_strings.
      apply send_data_code_inj in Heq; [done| |done..].
      vm_compute. reflexivity.
    + right. vm_compute. discriminate.
  - apply (f_equal length) in Heq. rewrite !length_app in Heq. lia.
Qed.

(** X11: the durations identify the frame.  For byte-valued settings and
    power modes and times of day, two calls of [__send_command] that return
    the same list were made for the same frame. *)
Theorem send_command_injective (s1 s2 : settings) (p1 p2 : Z)
    (now1 now2 : time) (h1 h2 : Mitsubishi.heap) (codes : list Z) :
  byte_settings s1 → 0 ≤ p1 < 256 → time_of_day now1 →
  byte_settings s2 → 0 ≤ p2 < 256 → time_of_day now2 →
  eval (Mitsubishi.__send_command s1 p1 now1) h1 = Some (RawCodes codes) →
  eval (Mitsubishi.__send_command s2 p2 now2) h2 = Some (RawCodes codes) →
  Mitsubishi.frame s1 p1 now1 = Mitsubishi.frame s2 p2 now2.
Proof.
  intros Hs1 Hp1 Hn1 Hs2 Hp2 Hn2. rewrite !send_command_eval.
  destruct (Mitsubishi.frame s1 p1 now1) as [d1|] eqn:Hd1; [|done].
  destruct (Mitsubishi.frame s2 p2 now2) as [d2|] eqn:Hd2; [|done].
  cbn [fmap option_fmap option_map]. intros E1 E2. f_equal. symmetry.
  apply waveform_inj; [| |congruence].
  - by apply (frame_is_bytes s2 p2 now2).
  - by apply (frame_is_bytes s1 p1 now1).
Qed.

Lemma default_byte_settings : byte_settings Mitsubishi.default_settings.
Proof.
  split; [|done]. repeat constructor; vm_compute; congruence.
Qed.

Lemma send_command_injective_witness :
  ∃ codes,
    eval (Mitsubishi.send_command Mitsubishi.default_settings (mk_time 7 30))
      [] = Some (RawCodes codes)
    ∧ Mitsubishi.frame Mitsubishi.default_settings PowerMode.PowerOn
        (mk_time 7 30)
      = Mitsubishi.frame Mitsubishi.default_settings PowerMode.PowerOn
          (mk_time 7 39).
Proof.
  eexists. split; [vm_compute; reflexivity|].
  eapply (send_command_injective Mitsubishi.default_settings
            Mitsubishi.default_settings PowerMode.PowerOn PowerMode.PowerOn
            (mk_time 7 30) (mk_time 7 39) [] []).
  - apply default_byte_settings.
  - vm_compute. split; congruence.
  - vm_compute. repeat split; congruence.
  - apply default_byte_settings.
  - vm_compute. split; congruence.
  - vm_compute. repeat split; congruence.
  - vm_compute. reflexivity.
  - vm_compute. reflexivity.
Defined.

(** X12: the clock byte is a reversible code of the ten-minute slot.  For
    a clock reading that is a time of day, the byte at the clock index is
    between 0 and 143; divided by 6 it gives the hour, and its remainder
    modulo 6 is the tens digit of the minute.  The same holds for the bytes
    of a scheduled end time and start time that are present. *)
Theorem frame_time_bytes (s : settings) (power_mode : Z) (now : time)
    (data : list Z) :
  time_of_day now →
  Mitsubishi.frame s power_mode now = Some data →
  (∃ b, data !! Index.Clock = Some b
        ∧ 0 ≤ b ≤ 143 ∧ b / 6 = hour now ∧ b mod 6 = minute now / 10)
  ∧ (∀ t, end_time s = Some t → time_of_day t →
          ∃ b, data !! Index.EndTime = Some b
               ∧ 0 ≤ b ≤ 143 ∧ b / 6 = hour t ∧ b mod 6 = minute t / 10)
  ∧ (∀ t, start_time s = Some t → time_of_day t →
          ∃ b, data !! Index.StartTime = Some b
               ∧ 0 ≤ b ≤ 143 ∧ b / 6 = hour t ∧ b mod 6 = minute t / 10).
Proof.
  assert (∀ t, time_of_day t →
               0 ≤ hour t * 6 + minute t / 10 ≤ 143
               ∧ (hour t * 6 + minute t / 10) / 6 = hour t
               ∧ (hour t * 6 + minute t / 10) mod 6 = minute t / 10)
    as Hslot.
  { intros [h m] [Hh Hm]. simpl in *.
    assert (0 ≤ m / 10) by (apply Z.div_pos; lia).
    assert (m / 10 < 6) by (apply Z.div_lt_upper_bound; lia).
    split; [lia|]. rewrite (Z.add_comm (h * 6)).
    rewrite Z.div_add, Z.mod_add by lia.
    rewrite Z.div_small, Z.mod_small by lia. lia. }
  intros Hnow. rewrite frame_payload.
  destruct (ClimateMode.climate2 (climate_mode s)) as [c2|]; [|done].
  intros [= <-]. split; [|split].
  - eexists. split; [reflexivity|]. by apply Hslot.
  - intros t Ht Htime. eexists. split; [reflexivity|].
    simpl. rewrite Ht. simpl. by apply Hslot.
  - intros t Ht Htime. eexists. split; [reflexivity|].
    simpl. rewrite Ht. simpl. by apply Hslot.
Qed.

Lemma frame_time_bytes_witness :
  ∃ data b,
    Mitsubishi.frame Mitsubishi.default_settings PowerMode.PowerOn
      (mk_time 13 47) = Some data
    ∧ data !! Index.Clock = Some b
    ∧ b = 82 ∧ b / 6 = 13 ∧ b mod 6 = 4.
Proof.
  destruct (frame_time_bytes Mitsubishi.default_settings PowerMode.PowerOn
              (mk_time 13 47) _ ltac:(vm_compute; repeat split; congruence)
              eq_refl)
    as ((b & Hb & _ & Hdiv & Hmod) & _).
  eexists _, b. split; [reflexivity|]. split; [exact Hb|].
  split; [|split; [exact Hdiv | exact Hmod]].
  vm_compute in Hb. congruence.
Defined.

(** X13: [power_off] never fails and, but for the clock byte and the
    checksum, always sends the same frame: power byte 0x00, mode byte 0x20
    (Auto, presence sensing off), temperature byte 5 (21 degrees), 0xC0 for
    the horizontal vane (Swing), 0xC0 for fan and vertical vane (both
    Auto), no scheduled time and no powerful mode. *)
Theorem power_off_frame (now : time) (h : Mitsubishi.heap) :
  let clock := hour now * 6 + minute now / 10 in
  let data := [0x23; 0xCB; 0x26; 0x01; 0x00; 0x00; 0x20; 0x05; 0xC0; 0xC0;
               clock; 0x00; 0x00; 0x00; 0x10; 0x00; 0x00;
               (714 + clock) mod 256] in
  eval (Mitsubishi.power_off now) h = Some (RawCodes (waveform data)).
Proof.
  intros clock data. unfold Mitsubishi.power_off.
  rewrite send_command_eval, frame_payload. simpl. do 3 f_equal.
  unfold data, payload. simpl. do 17 f_equal.
  unfold builtins.sum. simpl. fold clock.
  change (Mitsubishi.time_control None None) with 0.
  cbv [PowerMode.PowerOff ClimateMode.Auto ISeeMode.ISeeOff
       ClimateMode.__Auto2 VanneHorizontalMode.Swing FanMode.Auto
       VanneVerticalMode.Auto AreaMode.NotSet PowerfulMode.PowerfulOff].
  simpl. do 2 f_equal.
  change (Z.lor 32 0) with 32. change (Z.lor 0 192) with 192.
  change (Z.lor 128 64) with 192. change (Z.lor 0 0) with 0. lia.
Qed.

End Frame_extras.

(** ** The entity *)

Section Entity_facts.

Context `{HvacModes}.

Import HvacIrClimate.

Lemma send_command_exec now w :
  exec (send_command now) w
  = match command (entity w) now with
    | inr c =>
        mk_world (entity w)
          (service_calls w
           ++ [mk_service_call "esphome"
                 (ESPHomeController._controller_data (_controller (entity w)))
                 c])
          (log w)
    | inl e => mk_world (entity w) (service_calls w) (log w ++ [Exception e])
    end.
Proof. unfold exec, send_command. by destruct (command (entity w) now). Qed.

Lemma length_waveform data :
  length data = 18%nat → length (Frame.waveform data) = 584%nat.
Proof.
  intros Hlen. unfold Frame.waveform.
  rewrite length_app, length_full_send_data_code, Hlen. reflexivity.
Qed.

Lemma facade_codes s power_mode now c :
  facade (Mitsubishi.__send_command s power_mode now) = inr c →
  ∃ data, Mitsubishi.frame s power_mode now = Some data
          ∧ c = RawCodes (Frame.waveform data)
          ∧ length (Frame.waveform data) = 584%nat.
Proof.
  unfold facade. rewrite send_command_eval, frame_payload.
  destruct (ClimateMode.climate2 (climate_mode s)) as [c2|]; [|done].
  simpl. intros [= <-]. eexists. split; [reflexivity|]. split; [done|].
  by apply length_waveform.
Qed.

(** Every command that [command] computes is a list of 584 durations. *)
Lemma command_codes e now c :
  command e now = inr c → ∃ codes, c = RawCodes codes ∧ length codes = 584%nat.
Proof.
  unfold command.
  destruct (getitem _ (_hvac_mode e)) as [?|hvac_mode]; [done|].
  destruct (getitem _ (_current_fan_mode e)) as [?|fan_mode]; [done|].
  destruct (getitem _ (_current_swing_mode e)) as [?|swing_mode]; [done|].
  case_bool_decide.
  - intros (data & _ & -> & Hlen)%facade_codes. eauto.
  - destruct hvac_mode as [climate_mode|]; [|done].
    intros (data & _ & -> & Hlen)%facade_codes. eauto.
Qed.

(** Every request in one equation: what it does to the entity, and
    whether [send_command] follows. *)
Lemma serve_outcome r now w :
  exec (serve r now) w
  = match outcome_of r (entity w) with
    | Refused =>
        mk_world (entity w) (service_calls w)
          (log w ++ [Warning "The temperature value is out of min/max range"])
    | Silent e => mk_world e (service_calls w) (log w)
    | Sent e => exec (send_command now) (mk_world e (service_calls w) (log w))
    end.
Proof.
  destruct w as [e calls lg].
  destruct r as [hvac_mode [temperature|]|hvac_mode|fan_mode|swing_mode| |];
    unfold serve, outcome_of, unless_off, is_off, with_hvac_mode,
      async_turn_on, async_turn_off, async_set_temperature,
      async_set_swing_mode, async_set_fan_mode, async_set_hvac_mode,
      hvac_is_off, set_entity;
    unfold exec, bind, when, modify, gets, ret; simpl.
  - destruct (_ || _); [done|]. simpl.
    destruct hvac_mode as [mode|]; simpl.
    + destruct (bool_decide (mode ≠ "")); simpl.
      * by destruct (bool_decide (mode = HVAC_MODE_OFF)).
      * by destruct (bool_decide (_ = HVAC_MODE_OFF)).
    + by destruct (bool_decide (_ = HVAC_MODE_OFF)).
  - done.
  - by destruct (bool_decide (hvac_mode = HVAC_MODE_OFF)).
  - by destruct (bool_decide (_ = HVAC_MODE_OFF)).
  - by destruct (bool_decide (_ = HVAC_MODE_OFF)).
  - by destruct (bool_decide (HVAC_MODE_OFF = HVAC_MODE_OFF)).
  - destruct (_last_on_operation e) as [last|]; simpl.
    + by destruct (bool_decide (last = HVAC_MODE_OFF)).
    + by destruct (bool_decide (HVAC_MODE_COOL = HVAC_MODE_OFF)).
Qed.

Lemma with_hvac_mode_fixed m e : fixed (with_hvac_mode m e) = fixed e.
Proof. unfold with_hvac_mode. by destruct (bool_decide _). Qed.

Lemma outcome_fixed r e e' :
  outcome_of r e = Silent e' ∨ outcome_of r e = Sent e' → fixed e' = fixed e.
Proof.
  destruct r as [hvac_mode [temperature|]|hvac_mode|fan_mode|swing_mode| |];
    unfold outcome_of, unless_off; simpl;
    repeat match goal with
           | |- context [if ?b then _ else _] => destruct b
           | |- context [match ?o with Some _ => _ | None => _ end] =>
               destruct o
           end;
    intros [Ho|Ho]; try discriminate Ho; injection Ho as <-;
    by rewrite ?with_hvac_mode_fixed.
Qed.

(** After any request, the attributes that no method assigns are as
    before, and the calls are the calls before, followed by at most one call
    that carries the command of the entity as the request leaves it. *)
Lemma serve_calls r now w :
  let w' := exec (serve r now) w in
  fixed (entity w') = fixed (entity w)
  ∧ (service_calls w' = service_calls w
     ∨ ∃ c, command (entity w') now = inr c
            ∧ service_calls w'
              = service_calls w
                ++ [mk_service_call "esphome"
                      (ESPHomeController._controller_data
                         (_controller (entity w))) c]).
Proof.
  simpl. rewrite serve_outcome.
  pose proof (outcome_fixed r (entity w)) as Hfixed.
  destruct (outcome_of r (entity w)) as [|e'|e']; simpl.
  - auto.
  - split; [apply Hfixed|]; auto.
  - specialize (Hfixed e' (or_intror eq_refl)).
    rewrite send_command_exec. simpl.
    destruct (command e' now) as [?|c] eqn:Hc; simpl; [by auto|].
    split; [done|]. right. exists c. split; [done|].
    do 4 f_equal. by injection Hfixed.
Qed.

Lemma serve_all_app rs1 rs2 w :
  serve_all (rs1 ++ rs2) w = serve_all rs2 (serve_all rs1 w).
Proof.
  revert w. induction rs1 as [|[r now] rs1 IH]; intros w; simpl; [done|].
  apply IH.
Qed.

(** A property of worlds that every request keeps holds after any
    sequence of requests. *)
Lemma serve_all_invariant (P : world → Prop) rs w :
  (∀ r now w, P w → P (exec (serve r now) w)) →
  P w → P (serve_all rs w).
Proof.
  intros Hstep. revert w.
  induction rs as [|[r now] rs IH]; intros w Hw; simpl; [done|].
  by apply IH, Hstep.
Qed.

Lemma serve_all_fixed rs w : fixed (entity (serve_all rs w)) = fixed (entity w).
Proof.
  revert w. induction rs as [|[r now] rs IH]; intros w; simpl; [done|].
  rewrite IH. apply (serve_calls r now w).
Qed.

End Entity_facts.

(** ** Properties of the entity *)

Section Entity_extras.

Context `{HvacModes}.

Import HvacIrClimate.

(** X14: whatever is asked of the entity, in any order and with any
    arguments, every call that its controller makes is a call of the domain
    ["esphome"] and of the configured service that carries a list of 584
    durations: never the error status, a partial list or nothing. *)
Theorem transmissions_well_formed (controller_data : string)
    (rs : list (request * time)) :
  Forall (well_formed_call controller_data)
    (service_calls (serve_all rs (initial_world controller_data))).
Proof.
  apply (serve_all_invariant
           (λ w, _controller (entity w) = ESPHomeController.mk controller_data
                 ∧ Forall (well_formed_call controller_data)
                     (service_calls w))).
  - intros r now w [Hctl Hcalls].
    destruct (serve_calls r now w) as [Hfixed Hsent].
    assert (_controller (entity (exec (serve r now) w))
            = ESPHomeController.mk controller_data) as Hctl'.
    { injection Hfixed as _ _ _ _ _ ->. done. }
    split; [done|].
    destruct Hsent as [-> | (c & Hc & ->)]; [done|].
    apply Forall_app_2; [done|]. apply Forall_cons_2; [|done].
    apply command_codes in Hc as (codes & -> & Hlen).
    rewrite Hctl. repeat split; eauto.
  - split; [done|]. constructor.
Qed.

Lemma with_hvac_mode_temperature m e :
  _target_temperature (with_hvac_mode m e) = _target_temperature e.
Proof. unfold with_hvac_mode. by destruct (bool_decide _). Qed.

Lemma send_command_entity now w : entity (exec (send_command now) w) = entity w.
Proof. rewrite send_command_exec. by destruct (command _ _). Qed.

(** The entity that a request leaves. *)
Lemma serve_entity r now w :
  entity (exec (serve r now) w)
  = match outcome_of r (entity w) with
    | Refused => entity w
    | Silent e | Sent e => e
    end.
Proof.
  rewrite serve_outcome.
  destruct (outcome_of r (entity w)); simpl; [done..|].
  apply send_command_entity.
Qed.

Lemma target_in_range (controller_data : string)
    (rs : list (request * time)) :
  16 ≤ _target_temperature (entity (serve_all rs (initial_world controller_data)))
  ≤ 31.
Proof.
  pose proof (serve_all_fixed rs (initial_world controller_data)) as Hfixed.
  cut (let w := serve_all rs (initial_world controller_data) in
       _min_temperature (entity w) = 16 ∧ _max_temperature (entity w) = 31
       ∧ 16 ≤ _target_temperature (entity w) ≤ 31); [simpl; tauto|].
  apply (serve_all_invariant
           (λ w, _min_temperature (entity w) = 16
                 ∧ _max_temperature (entity w) = 31
                 ∧ 16 ≤ _target_temperature (entity w) ≤ 31)).
  - intros r now w (Hmin & Hmax & Ht). rewrite serve_entity.
    destruct r as [hvac_mode [temperature|]|hvac_mode|fan_mode|swing_mode| |];
      unfold outcome_of, unless_off; simpl;
      rewrite ?Hmin, ?Hmax;
      repeat case_bool_decide; simpl;
      repeat match goal with
             | |- context [match ?o with Some _ => _ | None => _ end] =>
                 destruct o; simpl
             | |- context [if ?b then _ else _] => destruct b eqn:?; simpl
             end;
      rewrite ?with_hvac_mode_temperature; simpl; repeat split; try lia;
      unfold with_hvac_mode; repeat case_bool_decide; simpl; lia.
  - simpl. lia.
Qed.

(** X15: the target temperature of the entity stays between 16 and 31
    whatever is asked of it, so the frame builder never has a temperature to
    clamp when the entity calls it. *)
Theorem target_temperature_in_range (controller_data : string)
    (rs : list (request * time)) :
  16 ≤ _target_temperature (entity (serve_all rs (initial_world controller_data)))
  ≤ 31.
Proof. apply target_in_range. Qed.

(** X16: a request to set a temperature below 16 or above 31 is dropped
    whole: the entity is as before, also when the request names a new mode,
    nothing is transmitted and one warning is logged.  A request that names
    a mode and no temperature does nothing at all. *)
Theorem set_temperature_refused (controller_data : string)
    (rs : list (request * time)) (hvac_mode : option string)
    (temperature : Z) (now : time) :
  temperature < 16 ∨ 31 < temperature →
  let w := serve_all rs (initial_world controller_data) in
  exec (serve (SetTemperature hvac_mode (Some temperature)) now) w
  = mk_world (entity w) (service_calls w)
      (log w ++ [Warning "The temperature value is out of min/max range"])
  ∧ exec (serve (SetTemperature hvac_mode None) now) w = w.
Proof.
  intros Hout w.
  pose proof (serve_all_fixed rs (initial_world controller_data)) as Hfixed.
  fold w in Hfixed. injection Hfixed as Hmin Hmax _ _ _ _.
  rewrite !serve_outcome. simpl. rewrite Hmin, Hmax. split.
  - destruct Hout.
    + by rewrite bool_decide_eq_true_2.
    + rewrite (bool_decide_eq_true_2 (temperature > 31)) by lia.
      by rewrite orb_true_r.
  - by destruct w.
Qed.

(** *** Switching off and on *)

Lemma with_hvac_mode_mode m e : _hvac_mode (with_hvac_mode m e) = m.
Proof. unfold with_hvac_mode. by destruct (bool_decide _). Qed.

Lemma with_hvac_mode_last m e :
  _last_on_operation (with_hvac_mode m e)
  = if bool_decide (m = HVAC_MODE_OFF) then _last_on_operation e else Some m.
Proof. unfold with_hvac_mode. by destruct (bool_decide _). Qed.

(** A mode that is on is also the last mode that was on. *)
Lemma last_on_operation_tracks rs controller_data :
  let e := entity (serve_all rs (initial_world controller_data)) in
  _hvac_mode e = HVAC_MODE_OFF ∨ _last_on_operation e = Some (_hvac_mode e).
Proof.
  apply (serve_all_invariant
           (λ w, _hvac_mode (entity w) = HVAC_MODE_OFF
                 ∨ _last_on_operation (entity w)
                   = Some (_hvac_mode (entity w)))).
  - intros r now w Hw. rewrite serve_entity.
    assert (∀ m e, _hvac_mode (with_hvac_mode m e) = HVAC_MODE_OFF
                   ∨ _last_on_operation (with_hvac_mode m e)
                     = Some (_hvac_mode (with_hvac_mode m e))) as Hwith.
    { intros m e. rewrite with_hvac_mode_mode, with_hvac_mode_last.
      case_bool_decide; auto. }
    destruct r as [hvac_mode [temperature|]|hvac_mode|fan_mode|swing_mode| |];
      unfold outcome_of, unless_off; simpl;
      repeat match goal with
             | |- context [match ?o with Some _ => _ | None => _ end] =>
                 destruct o; simpl
             | |- context [if ?b then _ else _] => destruct b eqn:?; simpl
             end;
      auto.
  - by left.
Qed.

Lemma keeps_mode_entity r now w :
  keeps_mode r →
  _hvac_mode (entity (exec (serve r now) w)) = _hvac_mode (entity w)
  ∧ _last_on_operation (entity (exec (serve r now) w))
    = _last_on_operation (entity w).
Proof.
  rewrite serve_entity.
  destruct r as [[hvac_mode|] [temperature|]|hvac_mode|fan_mode|swing_mode| |];
    try done; intros _;
    unfold outcome_of, unless_off; simpl;
    repeat match goal with
           | |- context [if ?b then _ else _] => destruct b eqn:?; simpl
           end;
    auto.
Qed.

Lemma keeps_mode_all rs w :
  Forall (λ rn, keeps_mode rn.1) rs →
  _hvac_mode (entity (serve_all rs w)) = _hvac_mode (entity w)
  ∧ _last_on_operation (entity (serve_all rs w))
    = _last_on_operation (entity w).
Proof.
  intros Hrs. revert w.
  induction Hrs as [|[r now] rs Hr _ IH]; intros w; simpl; [done|].
  destruct (IH (exec (serve r now) w)) as [-> ->].
  by apply keeps_mode_entity.
Qed.

(** X17: switching off and on again restores the mode.  After any
    sequence of requests that leaves a mode other than [HVAC_MODE_OFF],
    [async_turn_off] makes the mode [HVAC_MODE_OFF], and a later
    [async_turn_on] makes it the earlier mode again, whatever fan, swing or
    plain temperature requests come in between; an entity that was never on
    is turned on in the mode [HVAC_MODE_COOL]. *)
Theorem turn_off_on_round_trip (controller_data : string)
    (rs between : list (request * time)) (now1 now2 : time) :
  Forall (λ rn, keeps_mode rn.1) between →
  let w := serve_all rs (initial_world controller_data) in
  let off := serve_all ((TurnOff, now1) :: between) w in
  let on := exec (serve TurnOn now2) off in
  _hvac_mode (entity off) = HVAC_MODE_OFF
  ∧ (_hvac_mode (entity w) ≠ HVAC_MODE_OFF →
     _hvac_mode (entity on) = _hvac_mode (entity w))
  ∧ (_last_on_operation (entity w) = None →
     _hvac_mode (entity on) = HVAC_MODE_COOL).
Proof.
  intros Hbetween w off on.
  pose proof (last_on_operation_tracks rs controller_data) as Htracks.
  fold w in Htracks. simpl in Htracks.
  destruct (keeps_mode_all between (exec (serve TurnOff now1) w) Hbetween)
    as [Hmode Hlast].
  change (serve_all between (exec (serve TurnOff now1) w))
    with off in Hmode, Hlast.
  subst on. clearbody off w.
  rewrite serve_entity in Hmode, Hlast. simpl in Hmode, Hlast.
  rewrite with_hvac_mode_mode in Hmode.
  rewrite with_hvac_mode_last, bool_decide_eq_true_2 in Hlast by done.
  assert (_hvac_mode (entity (exec (serve TurnOn now2) off))
          = default HVAC_MODE_COOL (_last_on_operation (entity w))) as Hon.
  { rewrite serve_entity. simpl. by rewrite with_hvac_mode_mode, Hlast. }
  split; [done|]. split.
  - intros Hne. destruct Htracks as [?|Hl]; [done|]. by rewrite Hon, Hl.
  - intros Hnone. by rewrite Hon, Hnone.
Qed.

(** *** Keys that the dictionaries do not have *)

Lemma operation_modes_off :
  is_Some (_operation_modes (init "") !! HVAC_MODE_OFF).
Proof.
  unfold init. simpl.
  do 4 (apply lookup_insert_is_Some'; right).
  apply lookup_insert_is_Some'. by left.
Qed.

Lemma fan_modes_unknown (f : string) :
  f ∉ ["Auto"; "Speed1"; "Speed2"; "Speed3"; "Speed4"]%string →
  _fan_modes (init "") !! f = None.
Proof.
  rewrite !not_elem_of_cons. intros (? & ? & ? & ? & ? & _).
  unfold init. simpl. by rewrite !lookup_insert_ne, lookup_empty.
Qed.

Lemma command_unknown_fan e now :
  is_Some (_operation_modes e !! _hvac_mode e) →
  _fan_modes e !! _current_fan_mode e = None →
  command e now = inl (KeyError (_current_fan_mode e)).
Proof.
  intros [hvac_mode Hmode] Hfan. unfold command, getitem.
  by rewrite Hmode, Hfan.
Qed.

Lemma command_unknown_fan_fails e now :
  _fan_modes e !! _current_fan_mode e = None →
  ∃ ex, command e now = inl ex.
Proof.
  intros Hfan. unfold command, getitem.
  destruct (_operation_modes e !! _hvac_mode e); rewrite ?Hfan; eauto.
Qed.

(** X18: a fan mode that is not a key of the table silences the entity,
    also for switching off.  After [async_set_fan_mode] with such a mode and
    then [async_turn_off], no call has been made, the entity reports the
    mode [HVAC_MODE_OFF], and the last entry of the log is the KeyError of
    the fan mode. *)
Theorem unknown_fan_mode_blocks_turn_off (controller_data : string)
    (rs : list (request * time)) (fan_mode : string) (now1 now2 : time) :
  fan_mode ∉ ["Auto"; "Speed1"; "Speed2"; "Speed3"; "Speed4"]%string →
  let w := serve_all rs (initial_world controller_data) in
  let w' := serve_all [(SetFanMode fan_mode, now1); (TurnOff, now2)] w in
  service_calls w' = service_calls w
  ∧ _hvac_mode (entity w') = HVAC_MODE_OFF
  ∧ _current_fan_mode (entity w') = fan_mode
  ∧ ∃ entries, log w' = entries ++ [Exception (KeyError fan_mode)].
Proof.
  intros Hfan%fan_modes_unknown w w'.
  pose proof (serve_all_fixed rs (initial_world controller_data)) as Hfixed.
  fold w in Hfixed. injection Hfixed as _ _ Hop Hfans _ _.
  subst w'.
  change (serve_all [(SetFanMode fan_mode, now1); (TurnOff, now2)] w)
    with (exec (serve TurnOff now2) (exec (serve (SetFanMode fan_mode) now1) w)).
  clearbody w.
  set (e1 := set_current_fan_mode fan_mode (entity w)).
  assert (∃ lg1, exec (serve (SetFanMode fan_mode) now1) w
                 = mk_world e1 (service_calls w) lg1) as [lg1 ->].
  { rewrite serve_outcome. simpl. unfold unless_off. fold e1.
    destruct (is_off e1); [by eexists|].
    rewrite send_command_exec. simpl.
    destruct (command_unknown_fan_fails e1 now1) as [ex ->]; [|by eexists].
    simpl. by rewrite Hfans. }
  rewrite serve_outcome. simpl. rewrite send_command_exec. simpl.
  set (e2 := with_hvac_mode HVAC_MODE_OFF e1).
  assert (_hvac_mode e2 = HVAC_MODE_OFF) as Hmode
    by apply with_hvac_mode_mode.
  assert (fixed e2 = fixed (entity w)) as Hfixed2
    by (unfold e2; by rewrite with_hvac_mode_fixed).
  injection Hfixed2 as _ _ Hop2 Hfans2 _ _.
  assert (_current_fan_mode e2 = fan_mode) as Hcur.
  { unfold e2, with_hvac_mode. by destruct (bool_decide _). }
  rewrite (command_unknown_fan e2 now2).
  - simpl. rewrite Hcur. eauto.
  - rewrite Hmode, Hop2, Hop. apply operation_modes_off.
  - by rewrite Hcur, Hfans2, Hfans.
Qed.

(** *** What is transmitted *)

Lemma fan_modes_known (f : string) :
  f ∈ ["Auto"; "Speed1"; "Speed2"; "Speed3"; "Speed4"]%string →
  is_Some (_fan_modes (init "") !! f).
Proof.
  rewrite !elem_of_cons, elem_of_nil. unfold init. simpl.
  intros [-> | [-> | [-> | [-> | [-> | []]]]]];
    repeat (apply lookup_insert_is_Some'; first [by left | right]).
Qed.

Lemma swing_modes_known (f : string) :
  f ∈ ["Top"; "MiddleTop"; "Middle"; "MiddleBottom"; "Bottom"; "Swing";
       "Auto"]%string →
  is_Some (_swing_modes (init "") !! f).
Proof.
  rewrite !elem_of_cons, elem_of_nil. unfold init. simpl.
  intros [-> | [-> | [-> | [-> | [-> | [-> | [-> | []]]]]]]];
    repeat (apply lookup_insert_is_Some'; first [by left | right]).
Qed.

Lemma facade_power_off now :
  ∃ codes, eval (Mitsubishi.power_off now) [] = Some (RawCodes codes)
           ∧ facade (Mitsubishi.power_off now) = inr (RawCodes codes).
Proof.
  unfold facade, Mitsubishi.power_off.
  rewrite send_command_eval, frame_payload. simpl. eauto.
Qed.

(** The entity of a run knows its controller and keeps the tables of
    [__init__]. *)
Lemma serve_all_constructed rs controller_data :
  let e := entity (serve_all rs (initial_world controller_data)) in
  _operation_modes e = _operation_modes (init "")
  ∧ _fan_modes e = _fan_modes (init "")
  ∧ _swing_modes e = _swing_modes (init "")
  ∧ _controller e = ESPHomeController.mk controller_data.
Proof.
  pose proof (serve_all_fixed rs (initial_world controller_data)) as Hfixed.
  injection Hfixed as _ _ Hop Hfan Hswing Hctl. auto.
Qed.

(** X19: switching off transmits the power-off frame.  When
    [HVAC_MODE_OFF] is its own lower-case form and the fan mode and the
    swing mode of the entity are keys of their tables, [async_turn_off]
    makes exactly one call: the list that [Mitsubishi.power_off] returns for
    the clock reading, whatever mode and temperature the entity had; it
    logs nothing. *)
Theorem turn_off_transmits_power_off (controller_data : string)
    (rs : list (request * time)) (now : time) :
  str.lower HVAC_MODE_OFF = HVAC_MODE_OFF →
  let w := serve_all rs (initial_world controller_data) in
  _current_fan_mode (entity w)
    ∈ ["Auto"; "Speed1"; "Speed2"; "Speed3"; "Speed4"]%string →
  _current_swing_mode (entity w)
    ∈ ["Top"; "MiddleTop"; "Middle"; "MiddleBottom"; "Bottom"; "Swing";
       "Auto"]%string →
  ∃ codes,
    eval (Mitsubishi.power_off now) [] = Some (RawCodes codes)
    ∧ exec (serve TurnOff now) w
      = mk_world (with_hvac_mode HVAC_MODE_OFF (entity w))
          (service_calls w
           ++ [mk_service_call "esphome" controller_data (RawCodes codes)])
          (log w).
Proof.
  intros Hlower w Hfan%fan_modes_known Hswing%swing_modes_known.
  destruct (serve_all_constructed rs controller_data)
    as (Hop & Hfans & Hswings & Hctl).
  fold w in Hop, Hfans, Hswings, Hctl. clearbody w.
  destruct (facade_power_off now) as (codes & Heval & Hfacade).
  exists codes. split; [done|].
  rewrite serve_outcome. simpl. rewrite send_command_exec. simpl.
  set (e := with_hvac_mode HVAC_MODE_OFF (entity w)).
  assert (e = set_hvac_mode HVAC_MODE_OFF (entity w)) as He.
  { unfold e, with_hvac_mode. by rewrite bool_decide_eq_true_2. }
  assert (command e now = inr (RawCodes codes)) as ->.
  { rewrite He. unfold command, getitem. simpl.
    rewrite Hop, Hfans, Hswings.
    destruct operation_modes_off as [hvac_mode ->].
    destruct Hfan as [fan_code ->]. destruct Hswing as [swing_code ->].
    by rewrite bool_decide_eq_true_2. }
  rewrite He. simpl. by rewrite Hctl.
Qed.

Lemma modes_distinct :
  modes_ok →
  HVAC_MODE_OFF ≠ HVAC_MODE_HEAT ∧ HVAC_MODE_OFF ≠ HVAC_MODE_COOL
  ∧ HVAC_MODE_OFF ≠ HVAC_MODE_DRY ∧ HVAC_MODE_OFF ≠ HVAC_MODE_FAN_ONLY
  ∧ HVAC_MODE_HEAT ≠ HVAC_MODE_COOL ∧ HVAC_MODE_HEAT ≠ HVAC_MODE_DRY
  ∧ HVAC_MODE_HEAT ≠ HVAC_MODE_FAN_ONLY ∧ HVAC_MODE_COOL ≠ HVAC_MODE_DRY
  ∧ HVAC_MODE_COOL ≠ HVAC_MODE_FAN_ONLY ∧ HVAC_MODE_DRY ≠ HVAC_MODE_FAN_ONLY.
Proof.
  intros [Hnd _].
  repeat match goal with
         | H : NoDup (_ :: _) |- _ => apply NoDup_cons in H as [? H]
         end.
  repeat match goal with
         | H : _ ∉ _ :: _ |- _ => apply not_elem_of_cons in H as [? H]
         end.
  repeat split; congruence.
Qed.

(** The codes of the four modes that are on. *)
Lemma operation_modes_on m code :
  modes_ok →
  (m, code) ∈ [(HVAC_MODE_HEAT, ClimateMode.Hot);
               (HVAC_MODE_COOL, ClimateMode.Cold);
               (HVAC_MODE_DRY, ClimateMode.Dry);
               (HVAC_MODE_FAN_ONLY, ClimateMode.Auto)] →
  _operation_modes (init "") !! m = Some (Some code)
  ∧ m ≠ HVAC_MODE_OFF
  ∧ str.lower m ≠ HVAC_MODE_OFF
  ∧ code ∈ ClimateMode.modes.
Proof.
  intros Hok Hin.
  pose proof (modes_distinct Hok)
    as (? & ? & ? & ? & ? & ? & ? & ? & ? & ?).
  destruct Hok as [_ Hlower].
  repeat match goal with
         | H : Forall _ (_ :: _) |- _ => apply Forall_cons_1 in H as [? H]
         end.
  unfold init, ClimateMode.modes. simpl.
  rewrite !elem_of_cons, elem_of_nil in Hin.
  assert (∀ k, (str.lower k = HVAC_MODE_OFF ↔ k = HVAC_MODE_OFF) →
               k ≠ HVAC_MODE_OFF → str.lower k ≠ HVAC_MODE_OFF) as Hlow
    by (intros k Hk; tauto).
  destruct Hin as [Hin | [Hin | [Hin | [Hin | []]]]];
    injection Hin as -> ->.
  - split; [|split; [|split]].
    + by rewrite lookup_insert_ne, lookup_insert_eq by congruence.
    + congruence.
    + apply Hlow; [done | congruence].
    + repeat constructor.
  - split; [|split; [|split]].
    + by rewrite !lookup_insert_ne, lookup_insert_eq by congruence.
    + congruence.
    + apply Hlow; [done | congruence].
    + repeat constructor.
  - split; [|split; [|split]].
    + by rewrite !lookup_insert_ne, lookup_insert_eq by congruence.
    + congruence.
    + apply Hlow; [done | congruence].
    + repeat constructor.
  - split; [|split; [|split]].
    + by rewrite lookup_insert_eq.
    + congruence.
    + apply Hlow; [done | congruence].
    + repeat constructor.
Qed.

(** X20: setting a mode that is on transmits the frame of that mode.
    When the five constants are different strings of which only
    [HVAC_MODE_OFF] has the lower-case form [HVAC_MODE_OFF], and the fan and
    swing modes of the entity are keys of their tables,
    [async_set_hvac_mode] with heat, cool, dry or fan-only makes exactly one
    call, for a frame of 18 bytes with power byte 0x20, mode byte 0x08,
    0x18, 0x10 or 0x20 (fan-only is sent as Auto), temperature byte
    [target - 16] and the codes of fan and swing at index 9; it logs
    nothing and records the mode as the last one that was on. *)
Theorem set_hvac_mode_transmits (controller_data : string)
    (rs : list (request * time)) (m : string) (code : Z) (now : time) :
  modes_ok →
  (m, code) ∈ [(HVAC_MODE_HEAT, ClimateMode.Hot);
               (HVAC_MODE_COOL, ClimateMode.Cold);
               (HVAC_MODE_DRY, ClimateMode.Dry);
               (HVAC_MODE_FAN_ONLY, ClimateMode.Auto)] →
  let w := serve_all rs (initial_world controller_data) in
  _current_fan_mode (entity w)
    ∈ ["Auto"; "Speed1"; "Speed2"; "Speed3"; "Speed4"]%string →
  _current_swing_mode (entity w)
    ∈ ["Top"; "MiddleTop"; "Middle"; "MiddleBottom"; "Bottom"; "Swing";
       "Auto"]%string →
  ∃ data fan_code swing_code,
    exec (serve (SetHvacMode m) now) w
    = mk_world
        (set_last_on_operation (Some m) (set_hvac_mode m (entity w)))
        (service_calls w
         ++ [mk_service_call "esphome" controller_data
               (RawCodes (Frame.waveform data))])
        (log w)
    ∧ length data = 18%nat
    ∧ data !! Index.Power = Some PowerMode.PowerOn
    ∧ data !! Index.ClimateAndISee = Some code
    ∧ data !! Index.Temperature
      = Some (_target_temperature (entity w) - 16)
    ∧ _fan_modes (entity w) !! _current_fan_mode (entity w) = Some fan_code
    ∧ _swing_modes (entity w) !! _current_swing_mode (entity w)
      = Some swing_code
    ∧ data !! Index.FanAndVerticalVanne = Some (Z.lor fan_code swing_code).
Proof.
  intros Hok Hm w Hfan%fan_modes_known Hswing%swing_modes_known.
  destruct (operation_modes_on m code Hok Hm)
    as (Hlookup & Hne & Hlower & Hcode).
  destruct (serve_all_constructed rs controller_data)
    as (Hop & Hfans & Hswings & Hctl).
  pose proof (target_in_range controller_data rs) as Htemp.
  fold w in Hop, Hfans, Hswings, Hctl, Htemp. clearbody w.
  destruct Hfan as [fan_code Hfan]. destruct Hswing as [swing_code Hswing].
  apply climate2_modes in Hcode as [c2 Hc2].
  rewrite serve_outcome. simpl. rewrite send_command_exec. simpl.
  set (e := with_hvac_mode m (entity w)).
  assert (e = set_last_on_operation (Some m) (set_hvac_mode m (entity w)))
    as He.
  { unfold e, with_hvac_mode. by rewrite bool_decide_eq_false_2. }
  set (s := {| climate_mode := code;
               temperature := _target_temperature (entity w);
               fan_mode := fan_code;
               vanne_vertical_mode := swing_code;
               vanne_horizontal_mode := VanneHorizontalMode.NotSet;
               isee_mode := ISeeMode.ISeeOff;
               area_mode := AreaMode.NotSet;
               start_time := None;
               end_time := None;
               powerful := PowerfulMode.PowerfulOff |}).
  set (data := Frame.payload s PowerMode.PowerOn now c2
               ++ [builtins.sum (Frame.payload s PowerMode.PowerOn now c2)
                   mod 256]).
  assert (command e now = inr (RawCodes (Frame.waveform data))) as ->.
  { rewrite He. unfold command, getitem. simpl.
    rewrite Hop, Hfans, Hswings, Hlookup, Hfan, Hswing.
    rewrite bool_decide_eq_false_2 by done.
    unfold facade, Mitsubishi.send_command. fold s.
    rewrite send_command_eval, frame_payload. simpl. by rewrite Hc2. }
  exists data, fan_code, swing_code.
  rewrite He. simpl. rewrite Hctl, Hfans, Hswings.
  split; [done|]. split; [done|]. split; [done|].
  split; [simpl; by rewrite Z.lor_0_r|].
  split; [simpl; f_equal; lia|]. done.
Qed.

End Entity_extras.

(** The statements at the values of Home Assistant. *)

Lemma set_temperature_refused_witness :
  let w := @initial_world home_assistant_modes "ac_send" in
  exec (@serve home_assistant_modes
          (SetTemperature (Some "cool"%string) (Some 40)) (mk_time 7 30)) w
  = HvacIrClimate.mk_world (HvacIrClimate.entity w) []
      [Warning "The temperature value is out of min/max range"].
Proof.
  apply (@set_temperature_refused home_assistant_modes "ac_send" []
           (Some "cool"%string) 40 (mk_time 7 30)).
  lia.
Defined.

Lemma home_assistant_modes_ok : @modes_ok home_assistant_modes.
Proof.
  split.
  - apply NoDup_ListNoDup.
    repeat (constructor; [simpl; intuition discriminate|]). constructor.
  - repeat constructor; vm_compute; intros; congruence.
Qed.

Lemma turn_off_on_round_trip_witness :
  let w := @serve_all home_assistant_modes
             [(SetHvacMode "heat", mk_time 7 30)]
             (@initial_world home_assistant_modes "ac_send") in
  let off := @serve_all home_assistant_modes
               [(TurnOff, mk_time 8 0); (SetFanMode "Auto", mk_time 8 5)] w in
  HvacIrClimate._hvac_mode
    (HvacIrClimate.entity
       (exec (@serve home_assistant_modes TurnOn (mk_time 9 0)) off))
  = "heat"%string.
Proof.
  pose proof (@turn_off_on_round_trip home_assistant_modes "ac_send"
                [(SetHvacMode "heat"%string, mk_time 7 30)]
                [(SetFanMode "Auto"%string, mk_time 8 5)]
                (mk_time 8 0) (mk_time 9 0)) as Hrt.
  cbv zeta in Hrt. destruct Hrt as (_ & Hon & _).
  - repeat constructor.
  - cbv zeta. rewrite Hon; [vm_compute; reflexivity | vm_compute; discriminate].
Defined.

Lemma unknown_fan_mode_blocks_turn_off_witness :
  let w := @serve_all home_assistant_modes
             [(SetHvacMode "heat", mk_time 7 30)]
             (@initial_world home_assistant_modes "ac_send") in
  HvacIrClimate.service_calls
    (@serve_all home_assistant_modes
       [(SetFanMode "Turbo", mk_time 8 0); (TurnOff, mk_time 8 5)] w)
  = HvacIrClimate.service_calls w.
Proof.
  pose proof (@unknown_fan_mode_blocks_turn_off home_assistant_modes
                "ac_send" [(SetHvacMode "heat"%string, mk_time 7 30)]
                "Turbo" (mk_time 8 0) (mk_time 8 5)) as Hblock.
  cbv zeta in Hblock. destruct Hblock as (Hcalls & _).
  - rewrite !not_elem_of_cons. repeat split; try discriminate.
    apply not_elem_of_nil.
  - exact Hcalls.
Defined.

Lemma turn_off_transmits_power_off_witness :
  ∃ codes,
    eval (Mitsubishi.power_off (mk_time 8 0)) [] = Some (RawCodes codes)
    ∧ HvacIrClimate.service_calls
        (exec (@serve home_assistant_modes TurnOff (mk_time 8 0))
           (@initial_world home_assistant_modes "ac_send"))
      = [mk_service_call "esphome" "ac_send" (RawCodes codes)].
Proof.
  pose proof (@turn_off_transmits_power_off home_assistant_modes "ac_send"
                [] (mk_time 8 0)) as Hoff.
  cbv zeta in Hoff. destruct Hoff as (codes & Heval & Hexec).
  - reflexivity.
  - simpl. repeat constructor.
  - simpl. repeat constructor.
  - exists codes. split; [exact Heval|].
    cbn [serve_all] in Hexec. rewrite Hexec. reflexivity.
Defined.

Lemma set_hvac_mode_transmits_witness :
  ∃ data,
    HvacIrClimate.service_calls
      (exec (@serve home_assistant_modes (SetHvacMode "fan_only")
               (mk_time 8 0))
         (@initial_world home_assistant_modes "ac_send"))
    = [mk_service_call "esphome" "ac_send" (RawCodes (Frame.waveform data))]
    ∧ data !! Index.Power = Some 0x20
    ∧ data !! Index.ClimateAndISee = Some 0x20
    ∧ data !! Index.Temperature = Some 0.
Proof.
  pose proof (@set_hvac_mode_transmits home_assistant_modes "ac_send" []
                "fan_only" ClimateMode.Auto (mk_time 8 0)
                home_assistant_modes_ok) as Hset.
  cbv zeta in Hset.
  destruct Hset
    as (data & fan_code & swing_code & Hexec & _ & Hp & Hm & Ht & _).
  - simpl. repeat constructor.
  - simpl. repeat constructor.
  - simpl. repeat constructor.
  - exists data. cbn [serve_all] in Hexec. rewrite Hexec.
    split; [reflexivity|]. split; [exact Hp|]. split; [exact Hm | exact Ht].
Defined.
